(** * Checkout resolvers of store-graphql: a shallow embedding

    The resolver module (node/resolvers/checkout/index.ts) adapts the
    checkout and session REST clients to GraphQL.  JavaScript objects are
    finite maps from property names to values, asynchronous client calls
    are requests answered by an arbitrary upstream, and every resolver is
    a computation in a small state-and-error monad whose state records
    the requests issued and the cookies set on the outgoing response. *)

From Stdlib Require Import Ascii Bool Arith Lia.
From stdpp Require Import base option list strings gmap fin_maps.

(** ** JavaScript values *)

(** Primitive values that occur in the payloads. *)
Inductive prim : Type :=
| PUndefined
| PNull
| PBool (b : bool)
| PStr (s : string).

(** Values stored in object properties: a primitive, an array of
    primitives or a flat object. *)
Inductive jsval : Type :=
| JPrim (p : prim)
| JArr (l : list prim)
| JObj (o : gmap string prim).

#[global] Instance prim_eq_dec : EqDecision prim.
Proof. solve_decision. Defined.

Abbreviation jundefined := (JPrim PUndefined).
Abbreviation jnull := (JPrim PNull).
Abbreviation jtrue := (JPrim (PBool true)).
Abbreviation jfalse := (JPrim (PBool false)).
Abbreviation jstr s := (JPrim (PStr s)).

(** ToBoolean on primitives: undefined, null, false and the empty string
    are falsy. *)
Definition prim_truthy (p : prim) : bool :=
  match p with
  | PUndefined | PNull => false
  | PBool b => b
  | PStr s => negb (bool_decide (s = ""))
  end.

(** ToBoolean: arrays and objects are always truthy. *)
Definition truthy (v : jsval) : bool :=
  match v with
  | JPrim p => prim_truthy p
  | JArr _ | JObj _ => true
  end.

(** [a || b] and [a && b] return one of their operands. *)
Definition js_or (a b : jsval) : jsval := if truthy a then a else b.
Definition js_and (a b : jsval) : jsval := if truthy a then b else a.

(** [a !== b].  Primitives are compared by type and value.  Arrays and
    objects are compared by identity; the two sides of every comparison
    in this module come from two different upstream responses, so a
    non-primitive operand is never identical to the other operand. *)
Definition strict_neq (a b : jsval) : bool :=
  match a, b with
  | JPrim p, JPrim q => negb (bool_decide (p = q))
  | _, _ => true
  end.


(** Property read [o.k]: a missing property reads as undefined. *)
Definition prop (o : gmap string jsval) (k : string) : jsval :=
  default jundefined (o !! k).

(** Ramda's [path([k1, k2], o)]: undefined as soon as a step is missing
    or goes through something that is not an object. *)
Definition path2 (k1 k2 : string) (o : gmap string jsval) : jsval :=
  match o !! k1 with
  | Some (JObj inner) => JPrim (default PUndefined (inner !! k2))
  | _ => jundefined
  end.

(** ** Marketing data *)

(** [SessionFields] and [OrderFormMarketingData] are plain objects. *)
Abbreviation SessionFields := (gmap string jsval).
Abbreviation OrderFormMarketingData := (gmap string jsval).

Record SessionMarketingParams : Type := {
  utm_source : jsval;
  utm_campaign : jsval;
  utm_medium : jsval;
  utmi_campaign : jsval;
  utmi_part : jsval;
  utmi_page : jsval
}.

Definition getSessionMarketingParams (sesionData : SessionFields)
  : SessionMarketingParams :=
  {| utm_source := path2 "utmParams" "source" sesionData;
     utm_campaign := path2 "utmParams" "campaign" sesionData;
     utm_medium := path2 "utmParams" "medium" sesionData;
     utmi_campaign := path2 "utmiParams" "campaign" sesionData;
     utmi_part := path2 "utmiParams" "part" sesionData;
     utmi_page := path2 "utmiParams" "page" sesionData |}.

(** Destructuring with a default, [{ k = null } = o]: the default replaces
    a missing property and an undefined one, nothing else. *)
Definition prop_or_null (o : gmap string jsval) (k : string) : jsval :=
  match o !! k with
  | None | Some (JPrim PUndefined) => jnull
  | Some v => v
  end.

Definition shouldUpdateMarketingData
    (orderFormMarketingTags : option OrderFormMarketingData)
    (sessionData : SessionFields) : jsval :=
  let stored := default ∅ orderFormMarketingTags in
  let utmCampaign := prop_or_null stored "utmCampaign" in
  let utmMedium := prop_or_null stored "utmMedium" in
  let utmSource := prop_or_null stored "utmSource" in
  let utmiCampaign := prop_or_null stored "utmiCampaign" in
  let utmiPart := prop_or_null stored "utmiPart" in
  let utmipage := prop_or_null stored "utmipage" in
  let params := getSessionMarketingParams sessionData in
  js_and
    (js_or (js_or (js_or (js_or (js_or
       (utm_source params)
       (utm_campaign params))
       (utm_medium params))
       (utmi_campaign params))
       (utmi_part params))
       (utmi_page params))
    (JPrim (PBool
      (strict_neq utmCampaign (utm_campaign params)
       || strict_neq utmMedium (utm_medium params)
       || strict_neq utmSource (utm_source params)
       || strict_neq utmiCampaign (utmi_campaign params)
       || strict_neq utmiPart (utmi_part params)
       || strict_neq utmipage (utmi_page params)))).

(** ** Set-Cookie lines

    Header strings are sequences of 8-bit code units, one [ascii] each. *)

(** [cookie.split('=')[0]]: the text before the first [=], the whole
    string when there is none. *)
Fixpoint split_head (sep : ascii) (s : string) : string :=
  match s with
  | EmptyString => EmptyString
  | String c s' => if Ascii.eqb c sep then EmptyString else String c (split_head sep s')
  end.

Section Whitelist.
(** [CHECKOUT_COOKIE] is imported from [../../utils]; its value is not
    part of this module. *)
Variable CHECKOUT_COOKIE : string.

Definition SetCookieWhitelist : list string := [CHECKOUT_COOKIE; ".ASPXAUTH"].

(** [Array.prototype.includes] on strings. *)
Definition includes (l : list string) (key : string) : bool :=
  existsb (fun x => bool_decide (x = key)) l.

Definition isWhitelistedSetCookie (cookie : string) : bool :=
  let key := split_head "=" cookie in
  includes SetCookieWhitelist key.
End Whitelist.

(** *** [String.prototype.replace] with the pattern [/domain=.+?(;|$)/] *)

(** The characters [.] does not match; among 8-bit code units these are
    line feed and carriage return. *)
Definition is_line_terminator (c : ascii) : bool :=
  Ascii.eqb c "010" || Ascii.eqb c "013".

Definition is_digit (c : ascii) : bool :=
  (48 <=? nat_of_ascii c) && (nat_of_ascii c <=? 57).

Fixpoint strip_prefix (p s : string) : option string :=
  match p with
  | EmptyString => Some s
  | String a p' =>
      match s with
      | String b s' => if Ascii.eqb a b then strip_prefix p' s' else None
      | EmptyString => None
      end
  end.

(** The lazy [.+?] once its first character is consumed, followed by the
    group [(;|$)]: stop at the first [;] or at the end of the input; a line
    terminator, which [.] does not match, makes the attempt fail.  Returns
    the further characters consumed by [.+?], the text captured by the
    group and what follows the match. *)
Fixpoint lazy_tail (s : string) : option (string * string * string) :=
  match s with
  | EmptyString => Some (EmptyString, EmptyString, EmptyString)
  | String c s' =>
      if Ascii.eqb c ";" then Some (EmptyString, ";", s')
      else if is_line_terminator c then None
      else match lazy_tail s' with
           | Some (m, cap, suffix) => Some (String c m, cap, suffix)
           | None => None
           end
  end.

(** A match of the whole pattern that starts at the head of [s]: the
    matched text, the captured group and the rest of the input. *)
Definition match_at (s : string) : option (string * string * string) :=
  match strip_prefix "domain=" s with
  | Some (String c r) =>
      if is_line_terminator c then None
      else match lazy_tail r with
           | Some (m, cap, suffix) =>
               Some ("domain=" +:+ String c m +:+ cap, cap, suffix)
           | None => None
           end
  | _ => None
  end.

(** GetSubstitution for a pattern with one capturing group and no named
    group: [$$], [$&], [$`], [$'] and the references [$1] and [$01] are
    expanded, every other use of [$] stays as written. *)
Fixpoint getSubstitution (matched before after cap1 template : string) : string :=
  match template with
  | EmptyString => EmptyString
  | String c t =>
      if negb (Ascii.eqb c "$") then String c (getSubstitution matched before after cap1 t)
      else
        match t with
        | EmptyString => "$"
        | String d1 t' =>
            if Ascii.eqb d1 "$" then "$" +:+ getSubstitution matched before after cap1 t'
            else if Ascii.eqb d1 "&" then matched +:+ getSubstitution matched before after cap1 t'
            else if Ascii.eqb d1 "`" then before +:+ getSubstitution matched before after cap1 t'
            else if Ascii.eqb d1 "'" then after +:+ getSubstitution matched before after cap1 t'
            else if is_digit d1 then
              let one_digit :=
                (if Ascii.eqb d1 "1" then cap1 else String "$" (String d1 EmptyString))
                  +:+ getSubstitution matched before after cap1 t' in
              match t' with
              | String d2 t'' =>
                  if is_digit d2 then
                    if Ascii.eqb d1 "0" && Ascii.eqb d2 "1"
                    then cap1 +:+ getSubstitution matched before after cap1 t''
                    else if Ascii.eqb d1 "0" && Ascii.eqb d2 "0"
                    then "$00" +:+ getSubstitution matched before after cap1 t''
                    else one_digit
                  else one_digit
              | EmptyString => one_digit
              end
            else String "$" (getSubstitution matched before after cap1 t)
        end
  end.

(** Replace the leftmost match; [before] is the input already scanned. *)
Fixpoint replace_first (template before s : string) : string :=
  match match_at s with
  | Some (matched, cap, suffix) =>
      getSubstitution matched before suffix cap template +:+ suffix
  | None =>
      match s with
      | EmptyString => EmptyString
      | String c s' => String c (replace_first template (before +:+ String c EmptyString) s')
      end
  end.

Definition replaceDomain (host : string) (cookie : string) : string :=
  replace_first ("domain=" +:+ host +:+ ";") EmptyString cookie.

(** ** Order forms, items and simulation results *)

Abbreviation OrderFormItem := (gmap string prim).
Abbreviation AssemblyOptionInput := (gmap string prim).

(** The order form is owned by the upstream; the resolvers read these
    properties.  A property that is null or undefined is [None]. *)
Record OrderForm : Type := {
  orderFormId : string;
  items : list OrderFormItem;
  marketingData : option OrderFormMarketingData;
  clientPreferencesData : option (gmap string jsval);
  value : Z
}.

(** An item to add: [options] apart from every other property ([rest] in
    the source's destructuring). *)
Record OrderFormItemInput : Type := {
  rest : gmap string prim;
  options : option (list AssemblyOptionInput)
}.

Record AddItemArgs : Type := {
  arg_orderFormId : option string;
  arg_items : option (list OrderFormItemInput);
  arg_salesChannel : prim
}.

Record Address : Type := { addressId : prim }.
Record PickupStoreInfo : Type := { address : option Address }.
Record SLA : Type := {
  sla_id : string;
  deliveryChannel : prim;
  pickupStoreInfo : option PickupStoreInfo
}.
Record LogisticsInfo : Type := { slas : option (list SLA) }.
Record Simulation : Type := { logisticsInfo : option (list LogisticsInfo) }.

Record SkuPickupSLAListArgs : Type := {
  itemId : string;
  seller : string;
  lat : string;
  long : string;
  country : string
}.

Record SimulationItem : Type := {
  sim_id : string;
  sim_seller : string;
  sim_quantity : nat
}.
Record SimulationArgs : Type := {
  sim_items : list SimulationItem;
  sim_country : string;
  sim_geoCoordinates : list string;
  sim_addressCountry : string
}.

(** The answer of [checkout.orderFormRaw()]. *)
Record RawOrderForm : Type := {
  headers : option (gmap string (list string));
  data : OrderForm
}.

Record ParsedCookie : Type := {
  name : string;
  cookie_value : string;
  cookie_options : gmap string prim
}.

(** What a resolver reads from its request context. *)
Record Context : Type := {
  cultureInfo : prim;          (* ctx.vtex.segment.cultureInfo *)
  x_forwarded_host : string    (* ctx.get('x-forwarded-host') *)
}.

(** ** Upstream requests *)

(** The client methods the resolvers call, indexed by what they answer. *)
Inductive Request : Type -> Type :=
| orderFormReq : Request OrderForm
| orderFormRawReq : Request RawOrderForm
| addItemReq (orderFormId : string) (items : list (gmap string prim))
    (salesChannel : prim) : Request OrderForm
| updateOrderFormMarketingDataReq (orderFormId : string)
    (marketingData : OrderFormMarketingData) : Request OrderForm
| updateOrderFormClientPreferencesDataReq (orderFormId : string)
    (preferences : gmap string jsval) : Request OrderForm
| simulationReq (args : SimulationArgs) : Request Simulation
| getSessionReq : Request SessionFields
| addOptionsReq (item : OrderFormItemInput) (addItem : OrderForm)
    (previousItems : list OrderFormItem) : Request unit.

Definition event : Type := { T : Type & Request T }.

Abbreviation ev r := (@existT Type Request _ r).

(** How a client call ends: it throws before handing back a promise, or
    it hands back a promise that is later fulfilled or rejected. *)
Inductive outcome (T : Type) : Type :=
| Thrown (e : string)
| Fulfilled (v : T)
| Rejected (e : string).
Arguments Thrown {T} e.
Arguments Fulfilled {T} v.
Arguments Rejected {T} e.

(** The upstream answers a request knowing the requests made before it.
    It also decides the timing: when two calls in flight are both
    rejected, whether the rejection of the call made first is the first
    to arrive. *)
Record Upstream : Type := {
  answer :> forall T : Type, list event -> Request T -> outcome T;
  first_call_rejects_first : list event -> bool
}.

Inductive error : Type :=
| UserInputError (message : string)
| UpstreamError (e : string).

Inductive result (A : Type) : Type :=
| Ok (a : A)
| Err (e : error).
Arguments Ok {A} a.
Arguments Err {A} e.

(** ** The resolver monad *)

Record State : Type := {
  trace : list event;              (* requests issued, oldest first *)
  cookies : list ParsedCookie      (* ctx.cookies.set calls, oldest first *)
}.

Definition initial : State := {| trace := []; cookies := [] |}.

Definition M (A : Type) : Type := State -> result A * State.

Definition ret {A} (a : A) : M A := fun st => (Ok a, st).

Definition throw {A} (e : error) : M A := fun st => (Err e, st).

Definition bind {A B} (m : M A) (k : A -> M B) : M B :=
  fun st =>
    match m st with
    | (Ok a, st') => k a st'
    | (Err e, st') => (Err e, st')
    end.

Notation "x <- m ;; k" := (bind m (fun x => k))
  (at level 100, m at next level, right associativity).
Notation "m ;;; k" := (bind m (fun _ => k))
  (at level 100, right associativity).

(** [try { return await m } catch (e) { h }] *)
Definition try_await {A} (m : M A) (h : error -> M A) : M A :=
  fun st =>
    match m st with
    | (Ok a, st') => (Ok a, st')
    | (Err e, st') => h e st'
    end.

(** [ctx.cookies.set(name, value, options)] *)
Definition cookies_set (c : ParsedCookie) : M unit :=
  fun st => (Ok tt, {| trace := trace st; cookies := cookies st ++ [c] |}).

(** Ramda's [forEach]. *)
Fixpoint forEach {A} (f : A -> M unit) (l : list A) : M unit :=
  match l with
  | [] => ret tt
  | x :: l' => f x ;;; forEach f l'
  end.

(** ** Pure parts of the resolvers *)

(** [pathOr([], ['logisticsInfo', '0', 'slas'], simulation)] *)
Definition simulation_slas (simulation : Simulation) : list SLA :=
  match logisticsInfo simulation with
  | Some (first :: _) => default [] (slas first)
  | _ => []
  end.

(** [sla.deliveryChannel === 'pickup-in-point'] *)
Definition is_pickup (sla : SLA) : bool :=
  bool_decide (deliveryChannel sla = PStr "pickup-in-point").

(** [path(['pickupStoreInfo', 'address', 'addressId'], s)] *)
Definition sla_addressId (s : SLA) : prim :=
  match pickupStoreInfo s with
  | Some info =>
      match address info with
      | Some a => addressId a
      | None => PUndefined
      end
  | None => PUndefined
  end.

Definition simulationArgs (args : SkuPickupSLAListArgs) : SimulationArgs :=
  {| sim_items := [ {| sim_id := itemId args; sim_seller := seller args;
                       sim_quantity := 1 |} ];
     sim_country := country args;
     sim_geoCoordinates := [long args; lat args];
     sim_addressCountry := country args |}.

(** [!!options && options.length > 0] *)
Definition has_options (item : OrderFormItemInput) : bool :=
  match options item with
  | Some (_ :: _) => true
  | _ => false
  end.

(** The six assignments made when the session object has a key. *)
Definition with_session_utm (sessionData : SessionFields)
    (newMarketingData : OrderFormMarketingData) : OrderFormMarketingData :=
  <["utmipage" := path2 "utmiParams" "page" sessionData]>
  (<["utmiPart" := path2 "utmiParams" "part" sessionData]>
  (<["utmiCampaign" := path2 "utmiParams" "campaign" sessionData]>
  (<["utmSource" := path2 "utmParams" "source" sessionData]>
  (<["utmMedium" := path2 "utmParams" "medium" sessionData]>
  (<["utmCampaign" := path2 "utmParams" "campaign" sessionData]>
     newMarketingData))))).

(** The [marketingTags] step: delete the property when it is null or
    undefined, filter an array with [Boolean], leave anything else. *)
Definition normalize_marketingTags (newMarketingData : OrderFormMarketingData)
  : OrderFormMarketingData :=
  match newMarketingData !! "marketingTags" with
  | None | Some (JPrim PUndefined) | Some (JPrim PNull) =>
      delete "marketingTags" newMarketingData
  | Some (JArr tags) =>
      <["marketingTags" := JArr (List.filter prim_truthy tags)]> newMarketingData
  | Some _ => newMarketingData
  end.

(** The payload of [updateOrderFormMarketingData] built by [addItem]. *)
Definition newMarketingData (marketingData : option OrderFormMarketingData)
    (sessionData : SessionFields) : OrderFormMarketingData :=
  let copy := default ∅ marketingData in
  let assigned :=
    if 0 <? size sessionData then with_session_utm sessionData copy else copy in
  normalize_marketingTags assigned.

(** [cultureInfo && clientPreferencesData.locale &&
     cultureInfo !== clientPreferencesData.locale] *)
Definition shouldUpdateClientPreferencesData (cultureInfo : prim)
    (clientPreferencesData : gmap string jsval) : jsval :=
  js_and
    (js_and (JPrim cultureInfo) (prop clientPreferencesData "locale"))
    (JPrim (PBool (strict_neq (JPrim cultureInfo) (prop clientPreferencesData "locale")))).

(** [(rawHeaders && rawHeaders['set-cookie']) || []] *)
Definition responseSetCookies (rawHeaders : option (gmap string (list string)))
  : list string :=
  match rawHeaders with
  | Some h => default [] (h !! "set-cookie")
  | None => []
  end.

(** ** The resolvers *)

Section Resolvers.
(** The upstream, and the two imports from [../../utils]. *)
Variable upstream : Upstream.
Variable CHECKOUT_COOKIE : string.
Variable parseCookie : string -> ParsedCookie.

(** Calling a client method: the call is recorded and the upstream
    decides how it ends. *)
Definition invoke {T} (r : Request T) : State -> outcome T * State :=
  fun st =>
    (upstream T (trace st) r,
     {| trace := trace st ++ [ev r]; cookies := cookies st |}).

(** [await p] outside any [try]: a throw and a rejection both end the
    resolver with that error. *)
Definition await {T} (p : State -> outcome T * State) : M T :=
  fun st =>
    match p st with
    | (Fulfilled v, st') => (Ok v, st')
    | (Thrown e, st') => (Err (UpstreamError e), st')
    | (Rejected e, st') => (Err (UpstreamError e), st')
    end.

Definition call {T} (r : Request T) : M T := await (invoke r).

(** [Promise.all([p1, p2])]: both calls are made, in order, before
    either promise settles; a throw while the array is built stops
    there.  When both promises reject, the result is rejected with the
    error of the one that rejects first, which the upstream decides. *)
Definition promise_all2 {A B}
    (p1 : State -> outcome A * State) (p2 : State -> outcome B * State)
  : State -> outcome (A * B) * State :=
  fun st =>
    match p1 st with
    | (Thrown e, st1) => (Thrown e, st1)
    | (Rejected e1, st1) =>
        match p2 st1 with
        | (Thrown e, st2) => (Thrown e, st2)
        | (Fulfilled _, st2) => (Rejected e1, st2)
        | (Rejected e2, st2) =>
            (Rejected (if first_call_rejects_first upstream (trace st2)
                       then e1 else e2),
             st2)
        end
    | (Fulfilled a, st1) =>
        match p2 st1 with
        | (Thrown e, st2) => (Thrown e, st2)
        | (Rejected e2, st2) => (Rejected e2, st2)
        | (Fulfilled b, st2) => (Fulfilled (a, b), st2)
        end
    end.

(** [getSession]: the promise of [sessionQueries.getSession] is returned
    from inside [try] without [await], so the [catch] block runs only
    when the call itself throws; the promise is handed to the caller as
    it is, fulfilled or rejected. *)
Definition getSession : State -> outcome SessionFields * State :=
  fun st =>
    match invoke getSessionReq st with
    | (Thrown e, st') => (Fulfilled ∅, st')
    | (Fulfilled s, st') => (Fulfilled s, st')
    | (Rejected e, st') => (Rejected e, st')
    end.

Definition syncWithStoreLocale (orderForm : OrderForm) (cultureInfo : prim)
  : M OrderForm :=
  let clientPreferencesData :=
    default {[ "locale" := JPrim cultureInfo ]} (clientPreferencesData orderForm) in
  if truthy (shouldUpdateClientPreferencesData cultureInfo clientPreferencesData)
  then
    let newClientPreferencesData :=
      <["locale" := JPrim cultureInfo]> clientPreferencesData in
    try_await
      (call (updateOrderFormClientPreferencesDataReq
               (orderFormId orderForm) newClientPreferencesData))
      (fun e => ret orderForm)
  else ret orderForm.

Definition orderForm (ctx : Context) : M OrderForm :=
  raw <- call orderFormRawReq ;;
  orderForm <- syncWithStoreLocale (data raw) (cultureInfo ctx) ;;
  let responseSetCookies := responseSetCookies (headers raw) in
  let host := x_forwarded_host ctx in
  let forwardedSetCookies :=
    List.filter (isWhitelistedSetCookie CHECKOUT_COOKIE) responseSetCookies in
  let parseAndClean := fun c => parseCookie (replaceDomain host c) in
  let cleanCookies := map parseAndClean forwardedSetCookies in
  forEach cookies_set cleanCookies ;;;
  ret orderForm.

Definition skuPickupSLAs (args : SkuPickupSLAListArgs) : M (list SLA) :=
  simulation <- call (simulationReq (simulationArgs args)) ;;
  let slas := simulation_slas simulation in
  ret (List.filter is_pickup slas).

Definition skuPickupSLA (args : SkuPickupSLAListArgs) (pickupId : string)
  : M (option SLA) :=
  slas <- skuPickupSLAs args ;;
  ret (List.find (fun s => bool_decide (sla_addressId s = PStr pickupId)) slas).

(** Modelled from the spec: [addOptionsForItems] of [./attachmentsHelper]
    is not part of the sources at hand.  For each item with options it
    issues one follow-up call that associates the item's options with
    the item just added, using the previous item list to map. *)
Fixpoint addOptionsForItems (withOptions : list OrderFormItemInput)
    (addItem : OrderForm) (previousItems : list OrderFormItem) : M unit :=
  match withOptions with
  | [] => ret tt
  | item :: others =>
      call (addOptionsReq item addItem previousItems) ;;;
      addOptionsForItems others addItem previousItems
  end.

Definition addItem (args : AddItemArgs) : M OrderForm :=
  match arg_orderFormId args, arg_items args with
  | Some orderFormId, Some items =>
      fetched <- await (promise_all2 (invoke orderFormReq) getSession) ;;
      let '({| marketingData := marketingData; items := previousItems |},
            sessionData) := fetched in
      (if truthy (shouldUpdateMarketingData marketingData sessionData)
       then
         call (updateOrderFormMarketingDataReq orderFormId
                 (newMarketingData marketingData sessionData)) ;;;
         ret tt
       else ret tt) ;;;
      let cleanItems := map rest items in
      let withOptions := List.filter has_options items in
      addItem <- call (addItemReq orderFormId cleanItems (arg_salesChannel args)) ;;
      addOptionsForItems withOptions addItem previousItems ;;;
      if length withOptions =? 0 then ret addItem else call orderFormReq
  | _, _ => throw (UserInputError "No order form id or items to add provided")
  end.
End Resolvers.

(** ** Notions used to state the properties *)

(** The six UTM fields, each stored field (after the [null] default) next
    to the session field it is compared with. *)
Definition utm_pairs (orderFormMarketingTags : option OrderFormMarketingData)
    (sessionData : SessionFields) : list (jsval * jsval) :=
  let stored := default ∅ orderFormMarketingTags in
  let params := getSessionMarketingParams sessionData in
  [ (prop_or_null stored "utmSource", utm_source params);
    (prop_or_null stored "utmCampaign", utm_campaign params);
    (prop_or_null stored "utmMedium", utm_medium params);
    (prop_or_null stored "utmiCampaign", utmi_campaign params);
    (prop_or_null stored "utmiPart", utmi_part params);
    (prop_or_null stored "utmipage", utmi_page params) ].



(** The rule the code implements: some session field is truthy and some
    stored field is not strictly equal to the session field. *)
Definition code_shouldUpdate (orderFormMarketingTags : option OrderFormMarketingData)
    (sessionData : SessionFields) : Prop :=
  Exists (fun p => truthy (snd p) = true) (utm_pairs orderFormMarketingTags sessionData)
  /\ Exists (fun p => strict_neq (fst p) (snd p) = true)
       (utm_pairs orderFormMarketingTags sessionData).

(** ** Sample inputs *)


Definition session_source_a : SessionFields :=
  {[ "utmParams" := JObj {[ "source" := PStr "a" ]} ]}.

Definition stored_source_b : OrderFormMarketingData :=
  {[ "utmSource" := jstr "b" ]}.

(** Session and stored data that carry the same six values. *)
Definition session_full : SessionFields :=
  {[ "utmParams" := JObj (<["source" := PStr "a"]> (<["campaign" := PStr "c"]>
                            {[ "medium" := PStr "m" ]}));
     "utmiParams" := JObj (<["campaign" := PStr "ic"]> (<["part" := PStr "ip"]>
                            {[ "page" := PStr "ig" ]})) ]}.

Definition stored_full : OrderFormMarketingData :=
  <["utmSource" := jstr "a"]> (<["utmCampaign" := jstr "c"]>
  (<["utmMedium" := jstr "m"]> (<["utmiCampaign" := jstr "ic"]>
  (<["utmiPart" := jstr "ip"]> {[ "utmipage" := jstr "ig" ]})))).

(** ** Notions used to state the cookie properties *)

Fixpoint all_chars (f : ascii -> bool) (s : string) : bool :=
  match s with
  | EmptyString => true
  | String c s' => f c && all_chars f s'
  end.

(** [pat] occurs somewhere in [s]. *)
Fixpoint occurs (pat s : string) : bool :=
  match strip_prefix pat s with
  | Some _ => true
  | None =>
      match s with
      | EmptyString => false
      | String _ s' => occurs pat s'
      end
  end.

(** A character a domain value is made of: no [;], no line terminator. *)
Definition value_char (c : ascii) : bool :=
  negb (Ascii.eqb c ";") && negb (is_line_terminator c).

Definition not_dollar (c : ascii) : bool := negb (Ascii.eqb c "$").

(** The cookie name in the words of the specification: what precedes the
    first [=] of the line. *)
Definition cookie_name (line : string) : string := split_head "=" line.

(** [s.split(sep)] *)
Fixpoint split_on (sep : ascii) (s : string) : list string :=
  match s with
  | EmptyString => [EmptyString]
  | String c s' =>
      if Ascii.eqb c sep then EmptyString :: split_on sep s'
      else match split_on sep s' with
           | h :: t => String c h :: t
           | [] => [String c EmptyString]
           end
  end.

Fixpoint trim_left (s : string) : string :=
  match s with
  | String c s' => if Ascii.eqb c " " then trim_left s' else s
  | EmptyString => EmptyString
  end.

(** The domain attribute of a Set-Cookie line in the words of the
    specification: among the attributes that follow the name-value pair,
    separated by [;], the value of the first one spelled [domain=]. *)
Definition domain_attribute (cookie : string) : option string :=
  match split_on ";" cookie with
  | [] => None
  | _ :: attributes =>
      head (omap (fun a => strip_prefix "domain=" (trim_left a)) attributes)
  end.

(** ** Sample upstreams *)

Definition sample_orderForm (id : string) : OrderForm :=
  {| orderFormId := id; items := []; marketingData := None;
     clientPreferencesData := None; value := 0 |}.

(** How a scripted upstream ends each kind of call; the first order-form
    fetch of a run and a later one are answered apart. *)
Record Answers : Type := {
  ans_orderForm : outcome OrderForm;
  ans_refetch : outcome OrderForm;
  ans_orderFormRaw : outcome RawOrderForm;
  ans_addItem : outcome OrderForm;
  ans_updateMarketingData : outcome OrderForm;
  ans_updateClientPreferences : outcome OrderForm;
  ans_simulation : outcome Simulation;
  ans_getSession : outcome SessionFields;
  ans_addOptions : outcome unit
}.

Definition scripted_answer (a : Answers)
  : forall T : Type, list event -> Request T -> outcome T :=
  fun T history r =>
    match r in Request T return outcome T with
    | orderFormReq =>
        match history with
        | [] => ans_orderForm a
        | _ => ans_refetch a
        end
    | orderFormRawReq => ans_orderFormRaw a
    | addItemReq _ _ _ => ans_addItem a
    | updateOrderFormMarketingDataReq _ _ => ans_updateMarketingData a
    | updateOrderFormClientPreferencesDataReq _ _ => ans_updateClientPreferences a
    | simulationReq _ => ans_simulation a
    | getSessionReq => ans_getSession a
    | addOptionsReq _ _ _ => ans_addOptions a
    end.

(** A scripted upstream whose rejections arrive in the order of the
    calls, and one on which the later call's rejection arrives first. *)
Definition scripted (a : Answers) : Upstream :=
  {| answer := scripted_answer a; first_call_rejects_first := fun _ => true |}.

Definition scripted_late_first (a : Answers) : Upstream :=
  {| answer := scripted_answer a; first_call_rejects_first := fun _ => false |}.

(** Every call answered. *)
Definition all_fine : Answers :=
  {| ans_orderForm := Fulfilled (sample_orderForm "cart");
     ans_refetch := Fulfilled (sample_orderForm "cart-refetched");
     ans_orderFormRaw :=
       Fulfilled {| headers := None; data := sample_orderForm "cart" |};
     ans_addItem := Fulfilled (sample_orderForm "cart-added");
     ans_updateMarketingData := Fulfilled (sample_orderForm "cart-marketing");
     ans_updateClientPreferences := Fulfilled (sample_orderForm "cart-locale");
     ans_simulation := Fulfilled {| logisticsInfo := None |};
     ans_getSession := Fulfilled ∅;
     ans_addOptions := Fulfilled tt |}.

Definition plain_item : OrderFormItemInput :=
  {| rest := {[ "id" := PStr "31" ]}; options := None |}.

Definition item_with_options : OrderFormItemInput :=
  {| rest := {[ "id" := PStr "32" ]};
     options := Some [ {[ "assemblyId" := PStr "add-on" ]} ] |}.

Definition add_args (its : option (list OrderFormItemInput)) : AddItemArgs :=
  {| arg_orderFormId := Some "cart"; arg_items := its;
     arg_salesChannel := PUndefined |}.

Definition sample_parseCookie (line : string) : ParsedCookie :=
  {| name := split_head "=" line; cookie_value := line; cookie_options := ∅ |}.

(** A computation that never ends with the input-validation error. *)
Definition no_input_error {A} (m : M A) : Prop :=
  forall st msg, fst (m st) <> Err (UserInputError msg).

(** An order form whose stored locale is not the store's, its raw answer
    with three Set-Cookie lines, and an upstream that refuses the locale
    update. *)
Definition cart_en : OrderForm :=
  {| orderFormId := "cart"; items := []; marketingData := None;
     clientPreferencesData := Some {[ "locale" := jstr "en-US" ]}; value := 0 |}.

Definition sample_cookie_lines : list string :=
  [ "checkout.vtex.com=__ofid=abc; domain=.vtex.com; path=/";
    "tracking=xyz; domain=.vtex.com";
    ".ASPXAUTH=tok; path=/" ].

Definition raw_en : RawOrderForm :=
  {| headers := Some {[ "set-cookie" := sample_cookie_lines ]}; data := cart_en |}.

Definition locale_update_fails : Answers :=
  {| ans_orderForm := Fulfilled cart_en;
     ans_refetch := Fulfilled cart_en;
     ans_orderFormRaw := Fulfilled raw_en;
     ans_addItem := Fulfilled cart_en;
     ans_updateMarketingData := Fulfilled cart_en;
     ans_updateClientPreferences := Rejected "503";
     ans_simulation := Fulfilled {| logisticsInfo := None |};
     ans_getSession := Fulfilled ∅;
     ans_addOptions := Fulfilled tt |}.

Definition sample_ctx : Context :=
  {| cultureInfo := PStr "pt-BR"; x_forwarded_host := "shop.example" |}.

(** The lines the specification lets through: those named
    [CHECKOUT_COOKIE] or [.ASPXAUTH]. *)
Definition spec_forwarded (CHECKOUT_COOKIE : string) (lines : list string)
  : list string :=
  filter (fun line => cookie_name line = CHECKOUT_COOKIE
                      \/ cookie_name line = ".ASPXAUTH") lines.

(** The state after one more request. *)
Definition record_request {T} (r : Request T) (st : State) : State :=
  {| trace := trace st ++ [ev r]; cookies := cookies st |}.

(** The simulation of the specification's example: a pickup SLA at
    address [X] and a delivery SLA. *)
Definition sla_pickup_X : SLA :=
  {| sla_id := "pickup";
     deliveryChannel := PStr "pickup-in-point";
     pickupStoreInfo :=
       Some {| address := Some {| addressId := PStr "X" |} |} |}.

Definition sla_delivery : SLA :=
  {| sla_id := "delivery"; deliveryChannel := PStr "delivery";
     pickupStoreInfo := None |}.

Definition sample_simulation : Simulation :=
  {| logisticsInfo := Some [ {| slas := Some [sla_pickup_X; sla_delivery] |} ] |}.

Definition simulation_answered : Answers :=
  {| ans_orderForm := Fulfilled (sample_orderForm "cart");
     ans_refetch := Fulfilled (sample_orderForm "cart");
     ans_orderFormRaw :=
       Fulfilled {| headers := None; data := sample_orderForm "cart" |};
     ans_addItem := Fulfilled (sample_orderForm "cart");
     ans_updateMarketingData := Fulfilled (sample_orderForm "cart");
     ans_updateClientPreferences := Fulfilled (sample_orderForm "cart");
     ans_simulation := Fulfilled sample_simulation;
     ans_getSession := Fulfilled ∅;
     ans_addOptions := Fulfilled tt |}.

Definition sample_sla_args : SkuPickupSLAListArgs :=
  {| itemId := "31"; seller := "1"; lat := "-22.9"; long := "-43.2";
     country := "BRA" |}.

(** ** Reading a trace *)

Definition marketing_update_of (ev : event)
  : option (string * OrderFormMarketingData) :=
  match projT2 ev with
  | updateOrderFormMarketingDataReq orderFormId payload => Some (orderFormId, payload)
  | _ => None
  end.

(** The marketing-data updates of a trace, with their payloads. *)
Definition marketing_updates (tr : list event)
  : list (string * OrderFormMarketingData) :=
  omap marketing_update_of tr.

(** The property names [addItem] assigns or normalizes. *)
Definition utm_keys : list string :=
  ["utmCampaign"; "utmMedium"; "utmSource"; "utmiCampaign"; "utmiPart"; "utmipage"].

(** What the specification asks of the payload: the six UTM properties
    hold the session's values, every other property but [marketingTags]
    is the stored one, and [marketingTags] is gone when it was absent or
    null and filtered of its falsy entries when it was an array. *)
Definition merged_payload (stored : OrderFormMarketingData)
    (sessionData : SessionFields) (payload : OrderFormMarketingData) : Prop :=
  (payload !! "utmCampaign" = Some (path2 "utmParams" "campaign" sessionData)
   /\ payload !! "utmMedium" = Some (path2 "utmParams" "medium" sessionData)
   /\ payload !! "utmSource" = Some (path2 "utmParams" "source" sessionData)
   /\ payload !! "utmiCampaign" = Some (path2 "utmiParams" "campaign" sessionData)
   /\ payload !! "utmiPart" = Some (path2 "utmiParams" "part" sessionData)
   /\ payload !! "utmipage" = Some (path2 "utmiParams" "page" sessionData))
  /\ (forall k, k ∉ utm_keys -> k <> "marketingTags" -> payload !! k = stored !! k)
  /\ match stored !! "marketingTags" with
     | None | Some (JPrim PUndefined) | Some (JPrim PNull) =>
         payload !! "marketingTags" = None
     | Some (JArr tags) =>
         payload !! "marketingTags" = Some (JArr (List.filter prim_truthy tags))
     | Some other => payload !! "marketingTags" = Some other
     end.

(** An upstream whose session call is rejected. *)
Definition session_rejected : Answers :=
  {| ans_orderForm := Fulfilled (sample_orderForm "cart");
     ans_refetch := Fulfilled (sample_orderForm "cart-refetched");
     ans_orderFormRaw :=
       Fulfilled {| headers := None; data := sample_orderForm "cart" |};
     ans_addItem := Fulfilled (sample_orderForm "cart-added");
     ans_updateMarketingData := Fulfilled (sample_orderForm "cart-marketing");
     ans_updateClientPreferences := Fulfilled (sample_orderForm "cart-locale");
     ans_simulation := Fulfilled {| logisticsInfo := None |};
     ans_getSession := Rejected "session unavailable";
     ans_addOptions := Fulfilled tt |}.

(** A computation that issues no marketing-data update. *)
Definition quiet {A} (m : M A) : Prop :=
  forall st, marketing_updates (trace (snd (m st))) = marketing_updates (trace st).

(** Stored marketing data with tags, two of them falsy, against a session
    that carries another source. *)
Definition stored_with_tags : OrderFormMarketingData :=
  <["utmSource" := jstr "b"]>
  (<["coupon" := jstr "WELCOME"]>
  {[ "marketingTags" := JArr [PStr "vip"; PStr ""; PNull; PStr "summer"] ]}).

Definition cart_with_tags : OrderForm :=
  {| orderFormId := "cart"; items := []; marketingData := Some stored_with_tags;
     clientPreferencesData := None; value := 0 |}.

Definition marketing_answers : Answers :=
  {| ans_orderForm := Fulfilled cart_with_tags;
     ans_refetch := Fulfilled (sample_orderForm "cart-refetched");
     ans_orderFormRaw := Fulfilled {| headers := None; data := cart_with_tags |};
     ans_addItem := Fulfilled (sample_orderForm "cart-added");
     ans_updateMarketingData := Fulfilled (sample_orderForm "cart-marketing");
     ans_updateClientPreferences := Fulfilled (sample_orderForm "cart-locale");
     ans_simulation := Fulfilled {| logisticsInfo := None |};
     ans_getSession := Fulfilled session_source_a;
     ans_addOptions := Fulfilled tt |}.

(** The follow-up calls for a list of items, as trace events. *)
Definition attach_calls (added : OrderForm) (previousItems : list OrderFormItem)
    (withOptions : list OrderFormItemInput) : list event :=
  map (fun item => ev (addOptionsReq item added previousItems)) withOptions.

(** The re-fetch that ends [addItem] when some item has options. *)
Definition refetch_calls (withOptions : list OrderFormItemInput) : list event :=
  match withOptions with
  | [] => []
  | _ :: _ => [ev orderFormReq]
  end.

(** ** Notions used by the further properties *)

Definition not_equals_sign (c : ascii) : bool := negb (Ascii.eqb c "=").

(** The session values of the six UTM fields. *)
Definition session_utm_values (sessionData : SessionFields) : list jsval :=
  map snd (utm_pairs None sessionData).

(** The preferences the locale sync works on, and the update it may
    send. *)
Definition sync_preferences (oform : OrderForm) (cultureInfo : prim)
  : gmap string jsval :=
  default {[ "locale" := JPrim cultureInfo ]} (clientPreferencesData oform).

Definition sync_update (oform : OrderForm) (cultureInfo : prim)
  : Request OrderForm :=
  updateOrderFormClientPreferencesDataReq (orderFormId oform)
    (<["locale" := JPrim cultureInfo]> (sync_preferences oform cultureInfo)).

(** An order form that stores another locale and a newsletter
    preference, and an upstream whose raw fetch and simulation fail. *)
Definition cart_en_optin : OrderForm :=
  {| orderFormId := "cart"; items := []; marketingData := None;
     clientPreferencesData :=
       Some (<["locale" := jstr "en-US"]> {[ "optinNewsLetter" := jtrue ]});
     value := 0 |}.

Definition fetches_fail : Answers :=
  {| ans_orderForm := Fulfilled cart_en;
     ans_refetch := Fulfilled cart_en;
     ans_orderFormRaw := Rejected "502";
     ans_addItem := Fulfilled cart_en;
     ans_updateMarketingData := Fulfilled cart_en;
     ans_updateClientPreferences := Fulfilled cart_en;
     ans_simulation := Rejected "simulation down";
     ans_getSession := Fulfilled ∅;
     ans_addOptions := Fulfilled tt |}.

(** A computation whose trace only grows. *)
Definition extends_trace {A} (m : M A) : Prop :=
  forall st, exists l, trace (snd (m st)) = trace st ++ l.

(** ** The [items] field of an order form *)

(** Ramda's [addIndex(map)]: the function also receives the position. *)
Fixpoint mapIndexed_from {A B} (idx : nat) (f : A -> nat -> B) (l : list A)
  : list B :=
  match l with
  | [] => []
  | x :: l' => f x idx :: mapIndexed_from (S idx) f l'
  end.

Definition mapIndexed {A B} (f : A -> nat -> B) (l : list A) : list B :=
  mapIndexed_from 0 f l.

Section OrderFormFields.
(** [isParentItem] and [buildAssemblyOptionsMap] come from
    [./attachmentsHelper]; they are parameters here. *)
Variable AssemblyOptionsMap : Type.
Variable isParentItem : OrderFormItem -> bool.
Variable buildAssemblyOptionsMap : OrderForm -> AssemblyOptionsMap.

Record AssemblyOptionsData : Type := {
  assemblyOptionsMap : AssemblyOptionsMap;
  childs : list OrderFormItem;
  index : nat;
  data_orderForm : OrderForm
}.

(** [fieldResolvers.OrderForm.items]: each item with its
    [assemblyOptionsData] property beside it. *)
Definition OrderForm_items (orderForm : OrderForm)
  : list (OrderFormItem * AssemblyOptionsData) :=
  let childs := List.filter (fun item => negb (isParentItem item)) (items orderForm) in
  let assemblyOptionsMap := buildAssemblyOptionsMap orderForm in
  mapIndexed
    (fun item index =>
       (item,
        {| assemblyOptionsMap := assemblyOptionsMap;
           childs := childs;
           index := index;
           data_orderForm := orderForm |}))
    (items orderForm).
End OrderFormFields.

(** An upstream that refuses the marketing update, and one that refuses
    the add-item call. *)
Definition marketing_update_fails : Answers :=
  {| ans_orderForm := Fulfilled cart_with_tags;
     ans_refetch := Fulfilled (sample_orderForm "cart-refetched");
     ans_orderFormRaw := Fulfilled {| headers := None; data := cart_with_tags |};
     ans_addItem := Fulfilled (sample_orderForm "cart-added");
     ans_updateMarketingData := Rejected "marketing refused";
     ans_updateClientPreferences := Fulfilled (sample_orderForm "cart-locale");
     ans_simulation := Fulfilled {| logisticsInfo := None |};
     ans_getSession := Fulfilled session_source_a;
     ans_addOptions := Fulfilled tt |}.

Definition addItem_fails : Answers :=
  {| ans_orderForm := Fulfilled (sample_orderForm "cart");
     ans_refetch := Fulfilled (sample_orderForm "cart-refetched");
     ans_orderFormRaw :=
       Fulfilled {| headers := None; data := sample_orderForm "cart" |};
     ans_addItem := Rejected "out of stock";
     ans_updateMarketingData := Fulfilled (sample_orderForm "cart-marketing");
     ans_updateClientPreferences := Fulfilled (sample_orderForm "cart-locale");
     ans_simulation := Fulfilled {| logisticsInfo := None |};
     ans_getSession := Fulfilled ∅;
     ans_addOptions := Fulfilled tt |}.

Definition orderForm_fetch_fails : Answers :=
  {| ans_orderForm := Rejected "cart unavailable";
     ans_refetch := Fulfilled (sample_orderForm "cart-refetched");
     ans_orderFormRaw :=
       Fulfilled {| headers := None; data := sample_orderForm "cart" |};
     ans_addItem := Fulfilled (sample_orderForm "cart-added");
     ans_updateMarketingData := Fulfilled (sample_orderForm "cart-marketing");
     ans_updateClientPreferences := Fulfilled (sample_orderForm "cart-locale");
     ans_simulation := Fulfilled {| logisticsInfo := None |};
     ans_getSession := Fulfilled ∅;
     ans_addOptions := Fulfilled tt |}.

Definition session_throws : Answers :=
  {| ans_orderForm := Fulfilled cart_with_tags;
     ans_refetch := Fulfilled (sample_orderForm "cart-refetched");
     ans_orderFormRaw := Fulfilled {| headers := None; data := cart_with_tags |};
     ans_addItem := Fulfilled (sample_orderForm "cart-added");
     ans_updateMarketingData := Fulfilled (sample_orderForm "cart-marketing");
     ans_updateClientPreferences := Fulfilled (sample_orderForm "cart-locale");
     ans_simulation := Fulfilled {| logisticsInfo := None |};
     ans_getSession := Thrown "no session client";
     ans_addOptions := Fulfilled tt |}.

(** The error [Promise.all] ends with in [addItem] when the order-form
    fetch is rejected with [e1]: that error, unless the session call is
    rejected too and its rejection arrives first. *)
Definition fetch_rejection (up : Upstream) (st : State) (e1 : string) : string :=
  let st1 := record_request orderFormReq st in
  let st2 := record_request getSessionReq st1 in
  match up _ (trace st1) getSessionReq with
  | Rejected e2 => if first_call_rejects_first up (trace st2) then e1 else e2
  | _ => e1
  end.

(** An item carries options when its [options] is a non-empty list. *)
Definition carries_options (item : OrderFormItemInput) : Prop :=
  exists o os, options item = Some (o :: os).

#[global] Instance carries_options_dec item : Decision (carries_options item).
Proof.
  unfold carries_options. destruct (options item) as [[|o os] |].
  - right. intros [o [os H]]. discriminate.
  - left. eauto.
  - right. intros [o [os H]]. discriminate.
Defined.

(** An SLA is at the pickup point [pickupId] when its pickup store has
    an address with that id. *)
Definition has_address_id (pickupId : string) (s : SLA) : Prop :=
  exists info a,
    pickupStoreInfo s = Some info
    /\ address info = Some a
    /\ addressId a = PStr pickupId.

(** An item with an empty list of options. *)
Definition item_empty_options : OrderFormItemInput :=
  {| rest := {[ "id" := PStr "33" ]}; options := Some [] |}.

(** An upstream on which both fetches of [addItem] are rejected. *)
Definition both_fetches_fail : Answers :=
  {| ans_orderForm := Rejected "cart unavailable";
     ans_refetch := Fulfilled (sample_orderForm "cart-refetched");
     ans_orderFormRaw :=
       Fulfilled {| headers := None; data := sample_orderForm "cart" |};
     ans_addItem := Fulfilled (sample_orderForm "cart-added");
     ans_updateMarketingData := Fulfilled (sample_orderForm "cart-marketing");
     ans_updateClientPreferences := Fulfilled (sample_orderForm "cart-locale");
     ans_simulation := Fulfilled {| logisticsInfo := None |};
     ans_getSession := Rejected "session unavailable";
     ans_addOptions := Fulfilled tt |}.

(** * Properties *)

(** ** Truthiness and the logical operators *)

Lemma truthy_js_or a b : truthy (js_or a b) = truthy a || truthy b.
Proof.
  unfold js_or. destruct (truthy a) eqn:Ha; simpl; [exact Ha | reflexivity].
Qed.

Lemma truthy_js_and a b : truthy (js_and a b) = truthy a && truthy b.
Proof.
  unfold js_and. destruct (truthy a) eqn:Ha; simpl; [reflexivity | exact Ha].
Qed.

Lemma js_and_bool_true a b :
  js_and a (JPrim (PBool b)) = jtrue <-> truthy a = true /\ b = true.
Proof.
  unfold js_and. destruct (truthy a) eqn:Ha.
  - split.
    + intros H. injection H as ->. auto.
    + intros [_ ->]. reflexivity.
  - split.
    + intros ->. simpl in Ha. discriminate.
    + intros [H _]. discriminate.
Qed.

Lemma strict_neq_refl_prim p : strict_neq (JPrim p) (JPrim p) = false.
Proof. simpl. rewrite bool_decide_eq_true_2; reflexivity. Qed.

(** ** The marketing-data decision rule *)

Lemma shouldUpdateMarketingData_code md s :
  shouldUpdateMarketingData md s = jtrue <-> code_shouldUpdate md s.
Proof.
  unfold shouldUpdateMarketingData, code_shouldUpdate, utm_pairs.
  rewrite js_and_bool_true.
  rewrite !truthy_js_or.
  rewrite !Exists_cons, !Exists_nil. simpl.
  rewrite !orb_true_iff. tauto.
Qed.



(** The two examples of the specification. *)
Example shouldUpdateMarketingData_a_vs_b :
  shouldUpdateMarketingData (Some stored_source_b) session_source_a = jtrue.
Proof. vm_compute. reflexivity. Qed.

Example shouldUpdateMarketingData_identical :
  shouldUpdateMarketingData (Some stored_full) session_full = jfalse.
Proof. vm_compute. reflexivity. Qed.


(** ** Rewriting the cookie domain *)

Lemma append_cons c (s t : string) : String c s +:+ t = String c (s +:+ t).
Proof. reflexivity. Qed.

Lemma append_nil_l (t : string) : "" +:+ t = t.
Proof. reflexivity. Qed.

Ltac simpl_append := rewrite ?append_cons, ?append_nil_l; simpl.

#[local] Arguments Ascii.eqb : simpl never.

Lemma all_chars_app f s t :
  all_chars f (s +:+ t) = all_chars f s && all_chars f t.
Proof.
  induction s as [|c s IH]; simpl_append; [reflexivity |].
  rewrite IH. apply andb_assoc.
Qed.

Lemma string_app_assoc (s t u : string) : (s +:+ t) +:+ u = s +:+ (t +:+ u).
Proof. induction s as [|c s IH]; simpl_append; [reflexivity | f_equal; exact IH]. Qed.

Lemma string_app_nil_r (s : string) : s +:+ "" = s.
Proof. induction s as [|c s IH]; simpl_append; [reflexivity | f_equal; exact IH]. Qed.

(** A template without [$] is inserted as it is written. *)
Lemma getSubstitution_literal matched before after cap1 template :
  all_chars not_dollar template = true ->
  getSubstitution matched before after cap1 template = template.
Proof.
  induction template as [|c t IH]; simpl; [reflexivity |].
  intros H. apply andb_true_iff in H. destruct H as [Hc Ht].
  unfold not_dollar in Hc. rewrite Hc. now rewrite IH.
Qed.

Lemma value_char_inv c :
  value_char c = true -> Ascii.eqb c ";" = false /\ is_line_terminator c = false.
Proof.
  unfold value_char. intros H. apply andb_true_iff in H. destruct H as [H1 H2].
  apply negb_true_iff in H1, H2. auto.
Qed.

Lemma lazy_tail_end v :
  all_chars value_char v = true ->
  lazy_tail v = Some (v, "", "").
Proof.
  induction v as [|c v IH]; simpl; [reflexivity |].
  intros H. apply andb_true_iff in H. destruct H as [Hc Hv].
  destruct (value_char_inv c Hc) as [H1 H2].
  rewrite H1, H2, (IH Hv). reflexivity.
Qed.

Lemma lazy_tail_semicolon v rest :
  all_chars value_char v = true ->
  lazy_tail (v +:+ String ";" rest) = Some (v, ";", rest).
Proof.
  induction v as [|c v IH]; simpl_append; [reflexivity |].
  intros H. apply andb_true_iff in H. destruct H as [Hc Hv].
  destruct (value_char_inv c Hc) as [H1 H2].
  rewrite H1, H2, (IH Hv). reflexivity.
Qed.

Lemma match_at_no_prefix s :
  strip_prefix "domain=" s = None -> match_at s = None.
Proof. unfold match_at. now intros ->. Qed.

(** ["domain="] cannot start inside a text it does not occur in and run
    over into a following ["domain="]: no proper suffix of the word is a
    prefix of it. *)
Lemma strip_prefix_straddle p x :
  p <> "" ->
  strip_prefix "domain=" p = None ->
  strip_prefix "domain=" (p +:+ "domain=" +:+ x) = None.
Proof.
  intros Hne H.
  destruct p as [|c1 p]; [congruence |]. clear Hne.
  repeat
    first
      [ reflexivity
      | discriminate
      | progress (rewrite ?append_cons, ?append_nil_l; simpl in H |- * );
        match goal with
        | |- context [Ascii.eqb ?a ?b] => destruct (Ascii.eqb a b) eqn:?
        end
      | match goal with
        | H : context [match ?q with EmptyString => _ | String _ _ => _ end] |- _ =>
            is_var q; destruct q
        end ].
Qed.

Lemma replace_first_eq template before s :
  replace_first template before s =
  match match_at s with
  | Some (matched, cap, suffix) =>
      getSubstitution matched before suffix cap template +:+ suffix
  | None =>
      match s with
      | EmptyString => EmptyString
      | String c s' =>
          String c (replace_first template (before +:+ String c EmptyString) s')
      end
  end.
Proof. destruct s; reflexivity. Qed.

Lemma occurs_cons pat c s :
  occurs pat (String c s) = false ->
  strip_prefix pat (String c s) = None /\ occurs pat s = false.
Proof.
  intros H. change (occurs pat (String c s)) with
    (match strip_prefix pat (String c s) with
     | Some _ => true
     | None => occurs pat s
     end) in H.
  destruct (strip_prefix pat (String c s)); [discriminate | auto].
Qed.

(** Without an occurrence of [domain=] nothing is replaced. *)
Lemma replace_first_unchanged template before cookie :
  occurs "domain=" cookie = false ->
  replace_first template before cookie = cookie.
Proof.
  revert before. induction cookie as [|c s IH]; intros before H.
  - reflexivity.
  - destruct (occurs_cons _ _ _ H) as [Hhere Hlater].
    rewrite replace_first_eq, (match_at_no_prefix _ Hhere).
    f_equal. apply IH, Hlater.
Qed.

(** The scan passes over a text in which [domain=] does not occur. *)
Lemma replace_first_skip template before p x :
  occurs "domain=" p = false ->
  replace_first template before (p +:+ "domain=" +:+ x) =
  p +:+ replace_first template (before +:+ p) ("domain=" +:+ x).
Proof.
  revert before. induction p as [|c p IH]; intros before H.
  - rewrite append_nil_l, string_app_nil_r. reflexivity.
  - destruct (occurs_cons _ _ _ H) as [Hhere Hlater].
    rewrite replace_first_eq.
    rewrite (match_at_no_prefix _ (strip_prefix_straddle (String c p) x
                                     ltac:(discriminate) Hhere)).
    rewrite !append_cons. f_equal.
    rewrite (IH _ Hlater), string_app_assoc. reflexivity.
Qed.

Lemma match_at_domain_end c v :
  value_char c = true -> all_chars value_char v = true ->
  match_at ("domain=" +:+ String c v) = Some ("domain=" +:+ String c v, "", "").
Proof.
  intros Hc Hv. destruct (value_char_inv c Hc) as [_ Hlt].
  unfold match_at.
  change (strip_prefix "domain=" ("domain=" +:+ String c v)) with (Some (String c v)).
  cbv beta iota. rewrite Hlt, (lazy_tail_end v Hv), string_app_nil_r. reflexivity.
Qed.

Lemma match_at_domain_semicolon c v rest :
  value_char c = true -> all_chars value_char v = true ->
  match_at ("domain=" +:+ String c (v +:+ String ";" rest))
  = Some ("domain=" +:+ String c v +:+ ";", ";", rest).
Proof.
  intros Hc Hv. destruct (value_char_inv c Hc) as [_ Hlt].
  unfold match_at.
  change (strip_prefix "domain=" ("domain=" +:+ String c (v +:+ String ";" rest)))
    with (Some (String c (v +:+ String ";" rest))).
  cbv beta iota. rewrite Hlt, (lazy_tail_semicolon v rest Hv). reflexivity.
Qed.

Lemma template_literal host :
  all_chars not_dollar host = true ->
  all_chars not_dollar ("domain=" +:+ host +:+ ";") = true.
Proof.
  intros H. rewrite !all_chars_app, H. reflexivity.
Qed.

(** C6, as the code has it: [replaceDomain host] returns a cookie string
    in which [domain=] does not occur unchanged, adding no domain; and
    when the host has no [$] and the first [domain=] of the string is
    followed by a non-empty value without [;] or line terminator, that
    value, up to the end of the string or through the next [;], is
    replaced by the host followed by [;], the rest of the string staying
    as it is. *)
Theorem replaceDomain_rewrites_first_domain :
  forall host : string,
    (forall cookie,
        occurs "domain=" cookie = false -> replaceDomain host cookie = cookie)
    /\ (all_chars not_dollar host = true ->
        forall p v rest,
          occurs "domain=" p = false ->
          v <> "" ->
          all_chars value_char v = true ->
          replaceDomain host (p +:+ "domain=" +:+ v)
          = p +:+ "domain=" +:+ host +:+ ";"
          /\ replaceDomain host (p +:+ "domain=" +:+ v +:+ ";" +:+ rest)
             = p +:+ "domain=" +:+ host +:+ ";" +:+ rest).
Proof.
  intros host. split.
  - intros cookie H. apply replace_first_unchanged, H.
  - intros Hhost p v rest Hp Hne Hv.
    destruct v as [|c v]; [congruence |].
    simpl in Hv. apply andb_true_iff in Hv. destruct Hv as [Hc Hv].
    unfold replaceDomain. split.
    + rewrite (replace_first_skip _ _ p (String c v) Hp).
      rewrite replace_first_eq, (match_at_domain_end c v Hc Hv).
      rewrite (getSubstitution_literal _ _ _ _ _ (template_literal host Hhost)).
      rewrite !string_app_assoc, string_app_nil_r. reflexivity.
    + rewrite (replace_first_skip _ _ p (String c v +:+ ";" +:+ rest) Hp).
      rewrite replace_first_eq.
      change ("domain=" +:+ String c v +:+ ";" +:+ rest)
        with ("domain=" +:+ String c (v +:+ String ";" rest)).
      rewrite (match_at_domain_semicolon c v rest Hc Hv).
      rewrite (getSubstitution_literal _ _ _ _ _ (template_literal host Hhost)).
      rewrite !string_app_assoc. reflexivity.
Qed.

Lemma replaceDomain_rewrites_first_domain_witness :
  replaceDomain "shop.example" ".ASPXAUTH=abc; path=/" = ".ASPXAUTH=abc; path=/"
  /\ replaceDomain "shop.example" ".ASPXAUTH=abc; domain=.vtex.com"
     = ".ASPXAUTH=abc; domain=shop.example;"
  /\ replaceDomain "shop.example" ".ASPXAUTH=abc; domain=.vtex.com; path=/"
     = ".ASPXAUTH=abc; domain=shop.example; path=/".
Proof.
  split.
  - apply (proj1 (replaceDomain_rewrites_first_domain "shop.example")).
    vm_compute. reflexivity.
  - apply (proj2 (replaceDomain_rewrites_first_domain "shop.example")
             ltac:(vm_compute; reflexivity)
             ".ASPXAUTH=abc; " ".vtex.com" " path=/");
      [vm_compute; reflexivity | discriminate | vm_compute; reflexivity].
Defined.

(** C6, as stated, fails: a whitelisted line without a domain attribute
    comes out without one, so its domain is not the forwarding host. *)
Lemma replaceDomain_no_domain_counterexample :
  domain_attribute (replaceDomain "shop.example" ".ASPXAUTH=abc; path=/")
  <> Some "shop.example".
Proof. vm_compute. discriminate. Qed.

(** Nor is a line that has the attribute always given the host: the
    pattern takes the first [domain=] it meets, here inside the value. *)
Example replaceDomain_inside_value :
  replaceDomain "shop.example" ".ASPXAUTH=subdomain=x; domain=.vtex.com"
  = ".ASPXAUTH=subdomain=shop.example; domain=.vtex.com".
Proof. vm_compute. reflexivity. Qed.

(** On a line that has the attribute, the host is what comes out. *)
Example replaceDomain_sample :
  domain_attribute
    (replaceDomain "shop.example" ".ASPXAUTH=abc; domain=.vtex.com; path=/")
  = Some "shop.example".
Proof. vm_compute. reflexivity. Qed.

(** ** Errors raised by the resolvers *)

Lemma no_input_error_ret {A} (a : A) : no_input_error (ret a).
Proof. intros st msg. discriminate. Qed.

Lemma no_input_error_bind {A B} (m : M A) (k : A -> M B) :
  no_input_error m -> (forall a, no_input_error (k a)) -> no_input_error (bind m k).
Proof.
  intros Hm Hk st msg. unfold bind.
  specialize (Hm st msg). destruct (m st) as [[a | e] st'] eqn:E.
  - apply Hk.
  - simpl in *. intros Heq. apply Hm. congruence.
Qed.

Lemma no_input_error_await {T} (p : State -> outcome T * State) :
  no_input_error (await p).
Proof.
  intros st msg. unfold await. destruct (p st) as [[e | v | e] st']; discriminate.
Qed.

Lemma no_input_error_addOptionsForItems up l resp prev :
  no_input_error (addOptionsForItems up l resp prev).
Proof.
  induction l as [|item l IH]; simpl.
  - apply no_input_error_ret.
  - apply no_input_error_bind; [apply no_input_error_await | intros _; exact IH].
Qed.

(** C7: without an order-form id or without items, [addItem] ends with
    [UserInputError] and issues no upstream call; with both, it never
    ends with that error. *)
Theorem addItem_input_validation :
  forall (upstream : Upstream) (args : AddItemArgs) (st : State),
    (arg_orderFormId args = None \/ arg_items args = None ->
     exists msg, addItem upstream args st = (Err (UserInputError msg), st))
    /\ (is_Some (arg_orderFormId args) -> is_Some (arg_items args) ->
        forall msg, fst (addItem upstream args st) <> Err (UserInputError msg)).
Proof.
  intros up args st. split.
  - intros H. unfold addItem.
    destruct (arg_orderFormId args), (arg_items args);
      try (eexists; reflexivity).
    destruct H; discriminate.
  - intros [ofid Hid] [its Hits] msg. unfold addItem. rewrite Hid, Hits.
    revert st msg.
    apply no_input_error_bind; [apply no_input_error_await |].
    intros [[? ? md ? ?] session].
    apply no_input_error_bind.
    { destruct (truthy _).
      - apply no_input_error_bind; [apply no_input_error_await |].
        intros _. apply no_input_error_ret.
      - apply no_input_error_ret. }
    intros _.
    apply no_input_error_bind; [apply no_input_error_await |].
    intros resp.
    apply no_input_error_bind; [apply no_input_error_addOptionsForItems |].
    intros _.
    destruct (_ =? 0); [apply no_input_error_ret | apply no_input_error_await].
Qed.

Lemma addItem_input_validation_witness :
  (exists msg,
      addItem (scripted all_fine) (add_args None) initial
      = (Err (UserInputError msg), initial))
  /\ (forall msg,
        fst (addItem (scripted all_fine) (add_args (Some [plain_item])) initial)
        <> Err (UserInputError msg)).
Proof.
  split.
  - apply (proj1 (addItem_input_validation (scripted all_fine) (add_args None) initial)).
    right. reflexivity.
  - apply (proj2 (addItem_input_validation (scripted all_fine)
                    (add_args (Some [plain_item])) initial)).
    + eexists. reflexivity.
    + eexists. reflexivity.
Defined.

(** ** Locale synchronisation *)

Lemma forEach_cookies_set l st :
  forEach cookies_set l st
  = (Ok tt, {| trace := trace st; cookies := cookies st ++ l |}).
Proof.
  revert st. induction l as [|c l IH]; intros st; simpl.
  - unfold ret. rewrite app_nil_r. destruct st; reflexivity.
  - unfold bind, cookies_set. rewrite IH. simpl.
    rewrite <- app_assoc. reflexivity.
Qed.

Lemma syncWithStoreLocale_no_update up oform c st :
  truthy (shouldUpdateClientPreferencesData c
            (default {[ "locale" := JPrim c ]} (clientPreferencesData oform))) = false ->
  syncWithStoreLocale up oform c st = (Ok oform, st).
Proof. unfold syncWithStoreLocale. intros ->. reflexivity. Qed.

(** The default preferences carry the store locale itself, so the
    inequality test fails. *)
Lemma shouldUpdate_default_preferences c :
  truthy (shouldUpdateClientPreferencesData c {[ "locale" := JPrim c ]}) = false.
Proof.
  unfold shouldUpdateClientPreferencesData, prop.
  rewrite lookup_singleton_eq. simpl default.
  rewrite truthy_js_and, strict_neq_refl_prim. apply andb_false_r.
Qed.

(** The locale sync never fails and never touches the cookies. *)
Lemma syncWithStoreLocale_total up oform c st :
  exists r st',
    syncWithStoreLocale up oform c st = (Ok r, st') /\ cookies st' = cookies st.
Proof.
  unfold syncWithStoreLocale. destruct (truthy _).
  - unfold try_await, call, await, invoke.
    destruct (up _ _ _) as [e | v | e]; simpl; eauto.
  - unfold ret. eauto.
Qed.

(** How the [orderForm] query runs once the raw order form has arrived. *)
Lemma orderForm_run (up : Upstream) CC pc ctx st raw :
  up _ (trace st) orderFormRawReq = Fulfilled raw ->
  orderForm up CC pc ctx st =
  match syncWithStoreLocale up (data raw) (cultureInfo ctx)
          (record_request orderFormRawReq st)
  with
  | (Ok synced, st2) =>
      (Ok synced,
       {| trace := trace st2;
          cookies :=
            cookies st2
            ++ map (fun line => pc (replaceDomain (x_forwarded_host ctx) line))
                 (List.filter (isWhitelistedSetCookie CC)
                    (responseSetCookies (headers raw))) |})
  | (Err e, st2) => (Err e, st2)
  end.
Proof.
  intros Hraw. unfold orderForm.
  unfold bind at 1. unfold call, await, invoke. rewrite Hraw.
  fold (record_request orderFormRawReq st). unfold bind at 1.
  destruct (syncWithStoreLocale _ _ _ _) as [[synced | e] st2]; [| reflexivity].
  unfold bind. rewrite forEach_cookies_set. reflexivity.
Qed.

(** C10: an order form without client preferences goes through the locale
    sync untouched, whatever the store locale: no request is issued and
    the [orderForm] query returns the order form it fetched. *)
Theorem syncWithStoreLocale_absent_preferences :
  forall (upstream : Upstream) (oform : OrderForm),
    clientPreferencesData oform = None ->
    (forall c st, syncWithStoreLocale upstream oform c st = (Ok oform, st))
    /\ (forall CC pc ctx st hdrs,
          upstream _ (trace st) orderFormRawReq
          = Fulfilled {| headers := hdrs; data := oform |} ->
          fst (orderForm upstream CC pc ctx st) = Ok oform
          /\ trace (snd (orderForm upstream CC pc ctx st))
             = trace st ++ [ev orderFormRawReq]).
Proof.
  intros up oform Hnone.
  assert (Hsync : forall c st, syncWithStoreLocale up oform c st = (Ok oform, st)).
  { intros c st. apply syncWithStoreLocale_no_update.
    rewrite Hnone. apply shouldUpdate_default_preferences. }
  split; [exact Hsync |].
  intros CC pc ctx st hdrs Hraw.
  rewrite (orderForm_run _ _ _ _ _ _ Hraw). simpl data. rewrite Hsync.
  split; reflexivity.
Qed.

Lemma syncWithStoreLocale_absent_preferences_witness :
  syncWithStoreLocale (scripted all_fine) (sample_orderForm "cart") (PStr "pt-BR") initial
  = (Ok (sample_orderForm "cart"), initial).
Proof.
  apply (proj1 (syncWithStoreLocale_absent_preferences (scripted all_fine)
                  (sample_orderForm "cart") eq_refl)).
Defined.

(** C8: when the locale update is attempted and the upstream call fails,
    by a rejection or by a throw, the failure is caught: the sync hands
    back the order form it was given and the [orderForm] query returns
    the order form it fetched. *)
Theorem orderForm_locale_sync_failure :
  forall (upstream : Upstream) CC pc (ctx : Context) (st : State)
         (raw : RawOrderForm) (e : string),
    let preferences :=
      default {[ "locale" := JPrim (cultureInfo ctx) ]}
        (clientPreferencesData (data raw)) in
    let update :=
      updateOrderFormClientPreferencesDataReq (orderFormId (data raw))
        (<["locale" := JPrim (cultureInfo ctx)]> preferences) in
    let st1 := record_request orderFormRawReq st in
    upstream _ (trace st) orderFormRawReq = Fulfilled raw ->
    truthy (shouldUpdateClientPreferencesData (cultureInfo ctx) preferences) = true ->
    (upstream _ (trace st1) update = Rejected e
     \/ upstream _ (trace st1) update = Thrown e) ->
    syncWithStoreLocale upstream (data raw) (cultureInfo ctx) st1
    = (Ok (data raw), record_request update st1)
    /\ fst (orderForm upstream CC pc ctx st) = Ok (data raw).
Proof.
  intros up CC pc ctx st raw e preferences update st1 Hraw Hshould Hfail.
  assert (Hsync : syncWithStoreLocale up (data raw) (cultureInfo ctx) st1
                  = (Ok (data raw), record_request update st1)).
  { unfold syncWithStoreLocale. fold preferences. rewrite Hshould.
    unfold try_await, call, await, invoke. fold update.
    destruct Hfail as [-> | ->]; reflexivity. }
  split; [exact Hsync |].
  rewrite (orderForm_run _ _ _ _ _ _ Hraw).
  fold st1. rewrite Hsync. reflexivity.
Qed.

Lemma orderForm_locale_sync_failure_witness :
  fst (orderForm (scripted locale_update_fails) "checkout.vtex.com"
         sample_parseCookie sample_ctx initial) = Ok cart_en.
Proof.
  apply (proj2 (orderForm_locale_sync_failure (scripted locale_update_fails)
                  "checkout.vtex.com" sample_parseCookie sample_ctx initial
                  raw_en "503" eq_refl ltac:(vm_compute; reflexivity)
                  (or_introl eq_refl))).
Defined.

(** ** The Set-Cookie whitelist *)

Lemma isWhitelistedSetCookie_spec CC line :
  isWhitelistedSetCookie CC line = true
  <-> cookie_name line = CC \/ cookie_name line = ".ASPXAUTH".
Proof.
  unfold isWhitelistedSetCookie, includes, SetCookieWhitelist, cookie_name. simpl.
  rewrite !orb_true_iff, !bool_decide_eq_true.
  split.
  - intros [H | [H | H]]; [left | right | discriminate]; auto.
  - intros [H | H]; auto.
Qed.




(** On the sample lines the tracking cookie is the one left out. *)
Example spec_forwarded_sample :
  spec_forwarded "checkout.vtex.com" sample_cookie_lines
  = [ "checkout.vtex.com=__ofid=abc; domain=.vtex.com; path=/";
      ".ASPXAUTH=tok; path=/" ].
Proof. vm_compute. reflexivity. Qed.

(** ** Pickup SLAs *)

Lemma skuPickupSLAs_run (up : Upstream) args st sim :
  up _ (trace st) (simulationReq (simulationArgs args)) = Fulfilled sim ->
  skuPickupSLAs up args st
  = (Ok (List.filter is_pickup (simulation_slas sim)),
     record_request (simulationReq (simulationArgs args)) st).
Proof.
  intros H. unfold skuPickupSLAs, bind, call, await, invoke. rewrite H. reflexivity.
Qed.

(** The code's filter keeps the SLAs whose delivery channel is
    [pickup-in-point]. *)
Lemma filter_is_pickup (l : list SLA) :
  List.filter is_pickup l
  = filter (fun s => deliveryChannel s = PStr "pickup-in-point") l.
Proof.
  induction l as [|s l IH]; [reflexivity |].
  simpl. rewrite filter_cons, IH. unfold is_pickup.
  destruct (decide (deliveryChannel s = PStr "pickup-in-point")) as [E | E].
  - rewrite bool_decide_eq_true_2 by exact E. reflexivity.
  - rewrite bool_decide_eq_false_2 by exact E. reflexivity.
Qed.

(** The path [pickupStoreInfo.address.addressId] is a given string
    exactly when the pickup store and its address are there and the
    address has that id. *)
Lemma sla_addressId_string (s : SLA) (pickupId : string) :
  sla_addressId s = PStr pickupId <-> has_address_id pickupId s.
Proof.
  unfold sla_addressId, has_address_id.
  destruct (pickupStoreInfo s) as [info |].
  - destruct (address info) as [a |] eqn:Haddress.
    + split; [intros H; exists info, a; auto |].
      intros [info' [a' [Hinfo [Ha Hid]]]]. congruence.
    + split; [discriminate |].
      intros [info' [a' [Hinfo [Ha Hid]]]]. congruence.
  - split; [discriminate |]. intros [info' [a' [Hinfo _]]]. discriminate.
Qed.

(** [Array.prototype.find] returns the first element that passes. *)
Lemma find_first {A} (f : A -> bool) (l : list A) (x : A) :
  List.find f l = Some x ->
  exists earlier later,
    l = earlier ++ x :: later
    /\ f x = true
    /\ Forall (fun y => f y = false) earlier.
Proof.
  induction l as [|y l IH]; simpl; [discriminate |].
  destruct (f y) eqn:Hy.
  - intros [= ->]. exists [], l. repeat split; [exact Hy | constructor].
  - intros H. destruct (IH H) as [earlier [later [-> [Hx Hall]]]].
    exists (y :: earlier), later. repeat split; [exact Hx |].
    constructor; assumption.
Qed.

Lemma find_nothing {A} (f : A -> bool) (l : list A) :
  List.find f l = None <-> Forall (fun y => f y = false) l.
Proof.
  induction l as [|y l IH]; simpl.
  - split; [constructor | reflexivity].
  - destruct (f y) eqn:Hy.
    + split; [discriminate |]. intros H. inversion H; congruence.
    + rewrite IH. split; [intros H; constructor; assumption |].
      intros H. inversion H; assumption.
Qed.

(** C4: once the simulation has answered, [skuPickupSLAs] returns, of
    the SLAs of the first logistics-info entry (none when the simulation
    has no entry, or the entry no SLAs), those whose [deliveryChannel] is
    [pickup-in-point], in their order and no others.  [skuPickupSLA]
    returns the first of them whose [pickupStoreInfo.address.addressId]
    is [pickupId], and nothing exactly when none of them has that id. *)
Theorem skuPickupSLA_filters_first_entry :
  forall (upstream : Upstream) (args : SkuPickupSLAListArgs)
         (pickupId : string) (st : State) (sim : Simulation)
         (first_slas : list SLA),
    upstream _ (trace st) (simulationReq (simulationArgs args)) = Fulfilled sim ->
    match logisticsInfo sim with
    | Some (first :: _) =>
        slas first = Some first_slas \/ (slas first = None /\ first_slas = [])
    | Some [] | None => first_slas = []
    end ->
    let pickups :=
      filter (fun s => deliveryChannel s = PStr "pickup-in-point") first_slas in
    let at_pickup := fun s : SLA =>
      exists info a,
        pickupStoreInfo s = Some info
        /\ address info = Some a
        /\ addressId a = PStr pickupId in
    fst (skuPickupSLAs upstream args st) = Ok pickups
    /\ exists found,
         fst (skuPickupSLA upstream args pickupId st) = Ok found
         /\ (found = None <-> Forall (fun s => ~ at_pickup s) pickups)
         /\ (forall s, found = Some s ->
                       at_pickup s
                       /\ exists earlier later,
                            pickups = earlier ++ s :: later
                            /\ Forall (fun s' => ~ at_pickup s') earlier).
Proof.
  intros up args pickupId st sim first_slas Hsim Hfirst pickups at_pickup.
  assert (Hslas : simulation_slas sim = first_slas).
  { unfold simulation_slas.
    destruct (logisticsInfo sim) as [[|first others] |]; try congruence.
    destruct Hfirst as [-> | [-> ->]]; reflexivity. }
  assert (Hrun : skuPickupSLAs up args st
                 = (Ok pickups,
                    record_request (simulationReq (simulationArgs args)) st)).
  { rewrite (skuPickupSLAs_run _ _ _ _ Hsim), Hslas, filter_is_pickup.
    reflexivity. }
  assert (Hno : forall s, bool_decide (sla_addressId s = PStr pickupId) = false
                          <-> ~ at_pickup s).
  { intros s. rewrite bool_decide_eq_false, sla_addressId_string. reflexivity. }
  split; [rewrite Hrun; reflexivity |].
  exists (List.find (fun s => bool_decide (sla_addressId s = PStr pickupId)) pickups).
  split; [| split].
  - unfold skuPickupSLA, bind. rewrite Hrun. reflexivity.
  - rewrite find_nothing. split; intros H; eapply Forall_impl; try exact H;
      intros s Hs; apply Hno; exact Hs.
  - intros s Hfind. apply find_first in Hfind.
    destruct Hfind as [earlier [later [Hsplit [Hs Hearlier]]]].
    apply bool_decide_eq_true in Hs. apply sla_addressId_string in Hs.
    split; [exact Hs |]. exists earlier, later. split; [exact Hsplit |].
    eapply Forall_impl; [exact Hearlier |]. intros s' Hs'. apply Hno. exact Hs'.
Qed.

Lemma skuPickupSLA_filters_first_entry_witness :
  fst (skuPickupSLAs (scripted simulation_answered) sample_sla_args initial)
  = Ok (filter (fun s => deliveryChannel s = PStr "pickup-in-point")
          [sla_pickup_X; sla_delivery])
  /\ exists found,
       fst (skuPickupSLA (scripted simulation_answered) sample_sla_args "X" initial)
       = Ok found
       /\ (found = None <->
           Forall (fun s => ~ exists info a,
                             pickupStoreInfo s = Some info
                             /\ address info = Some a
                             /\ addressId a = PStr "X")
             (filter (fun s => deliveryChannel s = PStr "pickup-in-point")
                [sla_pickup_X; sla_delivery]))
       /\ (forall s, found = Some s ->
                     (exists info a,
                        pickupStoreInfo s = Some info
                        /\ address info = Some a
                        /\ addressId a = PStr "X")
                     /\ exists earlier later,
                          filter (fun s => deliveryChannel s = PStr "pickup-in-point")
                            [sla_pickup_X; sla_delivery]
                          = earlier ++ s :: later
                          /\ Forall (fun s' => ~ exists info a,
                                                 pickupStoreInfo s' = Some info
                                                 /\ address info = Some a
                                                 /\ addressId a = PStr "X")
                               earlier).
Proof.
  apply (skuPickupSLA_filters_first_entry (scripted simulation_answered)
           sample_sla_args "X" initial sample_simulation
           [sla_pickup_X; sla_delivery] eq_refl).
  left. reflexivity.
Defined.

(** The example of the specification. *)
Example skuPickupSLA_sample :
  fst (skuPickupSLAs (scripted simulation_answered) sample_sla_args initial)
  = Ok [sla_pickup_X]
  /\ fst (skuPickupSLA (scripted simulation_answered) sample_sla_args "X" initial)
     = Ok (Some sla_pickup_X)
  /\ fst (skuPickupSLA (scripted simulation_answered) sample_sla_args "Y" initial)
     = Ok None.
Proof. repeat split; vm_compute; reflexivity. Qed.

(** ** The session fetch of [addItem] *)

(** The two fetches succeed exactly when the order form arrives and the
    session call does not reject; a session call that throws counts as an
    empty session. *)
Lemma fetch_run (up : Upstream) st :
  await (promise_all2 up (invoke up orderFormReq) (getSession up)) st =
  let st1 := record_request orderFormReq st in
  let st2 := record_request getSessionReq st1 in
  match up _ (trace st) orderFormReq with
  | Thrown e => (Err (UpstreamError e), st1)
  | Rejected e => (Err (UpstreamError (fetch_rejection up st e)), st2)
  | Fulfilled oform =>
      match up _ (trace st1) getSessionReq with
      | Thrown _ => (Ok (oform, ∅), st2)
      | Fulfilled session => (Ok (oform, session), st2)
      | Rejected e => (Err (UpstreamError e), st2)
      end
  end.
Proof.
  unfold fetch_rejection, await, promise_all2, getSession, invoke, record_request.
  simpl.
  destruct (up _ (trace st) orderFormReq) as [e | oform | e]; [reflexivity | |];
    destruct (up _ (trace st ++ [ev orderFormReq]) getSessionReq);
    reflexivity.
Qed.

(** C3 fails on the code: a rejected session call is not caught.
    [getSession] hands the rejected promise on, and [addItem] ends with
    the session's error after its two fetches, before any item is added.
    Only a call that throws on the spot degrades to the empty session. *)
Theorem getSession_rejection_propagates :
  forall (upstream : Upstream) (args : AddItemArgs) (orderFormId : string)
         (items : list OrderFormItemInput) (st : State) (oform : OrderForm)
         (e : string),
    arg_orderFormId args = Some orderFormId ->
    arg_items args = Some items ->
    upstream _ (trace st) orderFormReq = Fulfilled oform ->
    upstream _ (trace (record_request orderFormReq st)) getSessionReq = Rejected e ->
    getSession upstream (record_request orderFormReq st)
    = (Rejected e, record_request getSessionReq (record_request orderFormReq st))
    /\ addItem upstream args st
       = (Err (UpstreamError e),
          record_request getSessionReq (record_request orderFormReq st)).
Proof.
  intros up args ofid its st oform e Hid Hits Hform Hsession. split.
  - unfold getSession, invoke. rewrite Hsession. reflexivity.
  - unfold addItem. rewrite Hid, Hits. unfold bind at 1.
    rewrite fetch_run. cbv zeta. rewrite Hform, Hsession. reflexivity.
Qed.

Lemma getSession_rejection_propagates_witness :
  addItem (scripted session_rejected) (add_args (Some [plain_item])) initial
  = (Err (UpstreamError "session unavailable"),
     record_request getSessionReq (record_request orderFormReq initial)).
Proof.
  apply (proj2 (getSession_rejection_propagates (scripted session_rejected)
                  (add_args (Some [plain_item])) "cart" [plain_item] initial
                  (sample_orderForm "cart") "session unavailable"
                  eq_refl eq_refl eq_refl eq_refl)).
Defined.

(** What the [catch] block does cover: a call that throws. *)
Lemma getSession_thrown_is_caught (up : Upstream) st e :
  up _ (trace st) getSessionReq = Thrown e ->
  getSession up st = (Fulfilled ∅, record_request getSessionReq st).
Proof. intros H. unfold getSession, invoke. rewrite H. reflexivity. Qed.

(** ** The marketing-data payload *)

Lemma path2_empty k1 k2 : path2 k1 k2 ∅ = jundefined.
Proof. unfold path2. rewrite lookup_empty. reflexivity. Qed.

(** A session that triggers the update has at least one property. *)
Lemma shouldUpdate_session_nonempty md session :
  truthy (shouldUpdateMarketingData md session) = true -> 0 < size session.
Proof.
  intros H. destruct (decide (size session = 0)) as [Hz | Hnz]; [| lia].
  apply map_size_empty_iff in Hz. subst session. exfalso.
  unfold shouldUpdateMarketingData, getSessionMarketingParams in H. simpl in H.
  rewrite !path2_empty in H. discriminate.
Qed.

Lemma normalize_marketingTags_other m k :
  k <> "marketingTags" -> normalize_marketingTags m !! k = m !! k.
Proof.
  intros Hk. unfold normalize_marketingTags.
  destruct (m !! "marketingTags") as [[[| | b | s] | tags | o] |];
    try reflexivity;
    first [ apply lookup_delete_ne; congruence
          | apply lookup_insert_ne; congruence ].
Qed.

Lemma normalize_marketingTags_tags m :
  match m !! "marketingTags" with
  | None | Some (JPrim PUndefined) | Some (JPrim PNull) =>
      normalize_marketingTags m !! "marketingTags" = None
  | Some (JArr tags) =>
      normalize_marketingTags m !! "marketingTags"
      = Some (JArr (List.filter prim_truthy tags))
  | Some other => normalize_marketingTags m !! "marketingTags" = Some other
  end.
Proof.
  unfold normalize_marketingTags.
  destruct (m !! "marketingTags") as [[[| | b | s] | tags | o] |] eqn:E;
    first [ apply lookup_delete_eq | apply lookup_insert_eq | exact E ].
Qed.

Lemma with_session_utm_other session m k :
  k ∉ utm_keys -> with_session_utm session m !! k = m !! k.
Proof.
  intros Hk. unfold utm_keys in Hk.
  repeat (apply not_elem_of_cons in Hk; destruct Hk as [? Hk]).
  unfold with_session_utm. rewrite !lookup_insert_ne by congruence. reflexivity.
Qed.

Lemma newMarketingData_merged md session :
  truthy (shouldUpdateMarketingData md session) = true ->
  merged_payload (default ∅ md) session (newMarketingData md session).
Proof.
  intros H. apply shouldUpdate_session_nonempty in H.
  unfold newMarketingData. apply Nat.ltb_lt in H. rewrite H.
  unfold merged_payload. split; [| split].
  - rewrite !normalize_marketingTags_other by discriminate.
    unfold with_session_utm.
    repeat split;
      repeat first [ apply lookup_insert_eq
                   | rewrite lookup_insert_ne by discriminate ].
  - intros k Hk Htags.
    rewrite normalize_marketingTags_other by exact Htags.
    apply with_session_utm_other, Hk.
  - pose proof (normalize_marketingTags_tags
                  (with_session_utm session (default ∅ md))) as Hn.
    rewrite with_session_utm_other in Hn; [exact Hn |].
    unfold utm_keys. rewrite !not_elem_of_cons.
    repeat split; try discriminate. apply not_elem_of_nil.
Qed.

(** ** Marketing updates in the trace of [addItem] *)

Lemma marketing_updates_record {T} (r : Request T) st :
  marketing_updates (trace (record_request r st))
  = marketing_updates (trace st) ++ option_list (marketing_update_of (ev r)).
Proof.
  unfold marketing_updates, record_request. simpl. rewrite omap_app. simpl.
  destruct (marketing_update_of _); reflexivity.
Qed.

Lemma call_state (up : Upstream) {T} (r : Request T) st :
  snd (call up r st) = record_request r st.
Proof.
  unfold call, await, invoke. destruct (up T (trace st) r); reflexivity.
Qed.

Lemma quiet_ret {A} (a : A) : quiet (ret a).
Proof. intros st. reflexivity. Qed.

Lemma quiet_bind {A B} (m : M A) (k : A -> M B) :
  quiet m -> (forall a, quiet (k a)) -> quiet (bind m k).
Proof.
  intros Hm Hk st. unfold bind. specialize (Hm st).
  destruct (m st) as [[a | e] st']; simpl in *.
  - rewrite Hk. exact Hm.
  - exact Hm.
Qed.

Lemma quiet_call (up : Upstream) {T} (r : Request T) :
  marketing_update_of (ev r) = None -> quiet (call up r).
Proof.
  intros Hr st. rewrite call_state, marketing_updates_record, Hr.
  apply app_nil_r.
Qed.

Lemma quiet_addOptionsForItems up l added prev :
  quiet (addOptionsForItems up l added prev).
Proof.
  induction l as [|item l IH]; simpl.
  - apply quiet_ret.
  - apply quiet_bind; [apply quiet_call; reflexivity | intros _; exact IH].
Qed.

(** The marketing updates [addItem] adds to the trace: one, with the
    payload built from what was fetched, when the decision rule says so,
    and none otherwise. *)
Lemma addItem_marketing_updates (up : Upstream) args ofid its st :
  arg_orderFormId args = Some ofid ->
  arg_items args = Some its ->
  marketing_updates (trace (snd (addItem up args st)))
  = marketing_updates (trace st)
    ++ match fst (await (promise_all2 up (invoke up orderFormReq) (getSession up)) st) with
       | Ok (oform, session) =>
           if truthy (shouldUpdateMarketingData (marketingData oform) session)
           then [(ofid, newMarketingData (marketingData oform) session)]
           else []
       | Err _ => []
       end.
Proof.
  intros Hid Hits. unfold addItem. rewrite Hid, Hits. unfold bind at 1.
  assert (Hfetch : quiet (await (promise_all2 up (invoke up orderFormReq) (getSession up)))).
  { intros s. rewrite fetch_run. cbv zeta.
    destruct (up _ (trace s) orderFormReq) as [e | oform | e];
      [| destruct (up _ (trace (record_request orderFormReq s)) getSessionReq) |];
      cbn [snd]; rewrite ?marketing_updates_record; cbn [marketing_update_of projT2 option_list];
      rewrite ?app_nil_r; reflexivity. }
  specialize (Hfetch st).
  destruct (await _ st) as [[[oform session] | e] st2]; simpl fst; simpl snd in Hfetch.
  2: { simpl. rewrite app_nil_r. exact Hfetch. }
  destruct oform as [oid oitems md prefs val]. simpl marketingData.
  assert (Htail : forall u : unit,
            quiet (added <- call up (addItemReq ofid (map rest its) (arg_salesChannel args)) ;;
                   addOptionsForItems up (List.filter has_options its) added oitems ;;;
                   if length (List.filter has_options its) =? 0
                   then ret added else call up orderFormReq)).
  { intros _. apply quiet_bind; [apply quiet_call; reflexivity |].
    intros added. apply quiet_bind; [apply quiet_addOptionsForItems |].
    intros _. destruct (_ =? 0); [apply quiet_ret | apply quiet_call; reflexivity]. }
  destruct (truthy (shouldUpdateMarketingData md session)).
  - unfold bind at 1. unfold bind at 1.
    pose proof (call_state up (updateOrderFormMarketingDataReq ofid
                                 (newMarketingData md session)) st2) as Hst.
    destruct (call up _ st2) as [[v | e] st3]; simpl in Hst; subst st3.
    + unfold ret at 1. rewrite (Htail tt), marketing_updates_record, Hfetch.
      reflexivity.
    + simpl snd. rewrite marketing_updates_record, Hfetch. reflexivity.
  - unfold bind at 1. unfold ret at 1. rewrite (Htail tt), app_nil_r. exact Hfetch.
Qed.

(** C9: every marketing-data update [addItem] sends carries the payload
    built from the fetched order form's marketing data and the session:
    the six UTM properties hold the session's values, the other stored
    properties are kept, and [marketingTags] is left out when it was
    absent or null and holds the truthy entries, in order, when it was an
    array. *)
Theorem addItem_marketing_payload :
  forall (upstream : Upstream) (args : AddItemArgs) (orderFormId : string)
         (payload : OrderFormMarketingData),
    In (orderFormId, payload)
       (marketing_updates (trace (snd (addItem upstream args initial)))) ->
    exists (oform : OrderForm) (session : SessionFields),
      upstream _ [] orderFormReq = Fulfilled oform
      /\ fst (getSession upstream (record_request orderFormReq initial))
         = Fulfilled session
      /\ arg_orderFormId args = Some orderFormId
      /\ payload = newMarketingData (marketingData oform) session
      /\ merged_payload (default ∅ (marketingData oform)) session payload.
Proof.
  intros up args ofid payload Hin.
  destruct (arg_orderFormId args) as [ofid' |] eqn:Hid;
    [destruct (arg_items args) as [its |] eqn:Hits |].
  - rewrite (addItem_marketing_updates up args ofid' its initial Hid Hits) in Hin.
    rewrite fetch_run in Hin. cbv zeta in Hin. simpl in Hin.
    unfold getSession, invoke. simpl.
    destruct (up _ [] orderFormReq) as [e | oform | e]; simpl in Hin; try contradiction.
    destruct (up _ [ev orderFormReq] getSessionReq) as [e | session | e];
      simpl in Hin; try contradiction.
    destruct (truthy _) eqn:Hshould; simpl in Hin; [| contradiction].
    destruct Hin as [Heq | []]. injection Heq as <- <-.
    exists oform, session.
    do 4 (split; [reflexivity |]).
    apply newMarketingData_merged, Hshould.
  - unfold addItem in Hin. rewrite Hid, Hits in Hin. contradiction.
  - unfold addItem in Hin. rewrite Hid in Hin. contradiction.
Qed.

Lemma addItem_marketing_payload_witness :
  exists (oform : OrderForm) (session : SessionFields),
    scripted marketing_answers _ [] orderFormReq = Fulfilled oform
    /\ fst (getSession (scripted marketing_answers)
              (record_request orderFormReq initial)) = Fulfilled session
    /\ arg_orderFormId (add_args (Some [plain_item])) = Some "cart"
    /\ newMarketingData (Some stored_with_tags) session_source_a
       = newMarketingData (marketingData oform) session
    /\ merged_payload (default ∅ (marketingData oform)) session
         (newMarketingData (Some stored_with_tags) session_source_a).
Proof.
  apply (addItem_marketing_payload (scripted marketing_answers)
           (add_args (Some [plain_item])) "cart"
           (newMarketingData (Some stored_with_tags) session_source_a)).
  vm_compute. left. reflexivity.
Defined.

(** On the sample, the empty and the null tag are gone and the coupon is
    kept. *)
Example newMarketingData_sample :
  newMarketingData (Some stored_with_tags) session_source_a !! "marketingTags"
  = Some (JArr [PStr "vip"; PStr "summer"])
  /\ newMarketingData (Some stored_with_tags) session_source_a !! "coupon"
     = Some (jstr "WELCOME")
  /\ newMarketingData (Some stored_with_tags) session_source_a !! "utmSource"
     = Some (jstr "a")
  /\ newMarketingData (Some stored_source_b) session_source_a !! "marketingTags"
     = None.
Proof. repeat split; vm_compute; reflexivity. Qed.

(** ** The calls of [addItem] *)

Lemma addOptionsForItems_ok up l added prev st u :
  fst (addOptionsForItems up l added prev st) = Ok u ->
  snd (addOptionsForItems up l added prev st)
  = {| trace := trace st ++ attach_calls added prev l; cookies := cookies st |}.
Proof.
  revert st. induction l as [|item l IH]; intros st H; simpl in *.
  - unfold ret. simpl. rewrite app_nil_r. destruct st; reflexivity.
  - unfold bind, call, await, invoke in *.
    destruct (up unit (trace st) (addOptionsReq item added prev)) as [e | [] | e];
      simpl in H; try discriminate.
    rewrite (IH _ H). simpl. rewrite <- app_assoc. reflexivity.
Qed.

(** The shape of a run of [addItem] that returns, read off the code. *)
Lemma addItem_run_shape (up : Upstream) args ofid its st returned :
  arg_orderFormId args = Some ofid ->
  arg_items args = Some its ->
  fst (addItem up args st) = Ok returned ->
  exists (oform : OrderForm) (session : SessionFields) (added : OrderForm),
    let withOptions := List.filter has_options its in
    let add := addItemReq ofid (map rest its) (arg_salesChannel args) in
    let marketing :=
      if truthy (shouldUpdateMarketingData (marketingData oform) session)
      then [ev (updateOrderFormMarketingDataReq ofid
                  (newMarketingData (marketingData oform) session))]
      else [] in
    let before := [ev orderFormReq; ev getSessionReq] ++ marketing in
    let attach := attach_calls added (items oform) withOptions in
    up _ (trace st) orderFormReq = Fulfilled oform
    /\ up _ (trace st ++ before) add = Fulfilled added
    /\ trace (snd (addItem up args st))
       = trace st ++ before ++ [ev add] ++ attach ++ refetch_calls withOptions
    /\ (withOptions = [] -> returned = added)
    /\ (withOptions <> [] ->
        up _ (trace st ++ before ++ [ev add] ++ attach) orderFormReq
        = Fulfilled returned).
Proof.
  intros Hid Hits Hok.
  unfold addItem in *. rewrite Hid, Hits in *.
  unfold bind at 1 in Hok. unfold bind at 1.
  rewrite fetch_run in *. cbv zeta in *.
  destruct (up _ (trace st) orderFormReq) as [e | oform | e] eqn:Hform;
    try discriminate Hok.
  set (st1 := record_request orderFormReq st) in *.
  assert (Hfetched : exists session,
             match up _ (trace st1) getSessionReq with
             | Thrown _ => (Ok (oform, ∅), record_request getSessionReq st1)
             | Fulfilled s => (Ok (oform, s), record_request getSessionReq st1)
             | Rejected e =>
                 (Err (UpstreamError e), record_request getSessionReq st1)
             end = (Ok (oform, session), record_request getSessionReq st1)).
  { destruct (up _ (trace st1) getSessionReq); try discriminate Hok; eauto. }
  destruct Hfetched as [session Hfetched]. rewrite Hfetched in *. clear Hfetched.
  set (st2 := record_request getSessionReq st1) in *.
  exists oform, session.
  destruct oform as [oid previousItems md prefs val]. cbn [marketingData items].
  set (withOptions := List.filter has_options its) in *.
  set (add := addItemReq ofid (map rest its) (arg_salesChannel args)) in *.
  (* the marketing step *)
  set (marketing :=
         if truthy (shouldUpdateMarketingData md session)
         then [ev (updateOrderFormMarketingDataReq ofid (newMarketingData md session))]
         else []).
  set (step := if truthy (shouldUpdateMarketingData md session)
               then call up (updateOrderFormMarketingDataReq ofid
                               (newMarketingData md session)) ;;; ret tt
               else ret tt) in *.
  assert (Hstep : exists st3,
             trace st3 = trace st2 ++ marketing
             /\ (fst (step st2) = Ok tt -> step st2 = (Ok tt, st3))).
  { unfold step, marketing. destruct (truthy _).
    - exists (record_request (updateOrderFormMarketingDataReq ofid
                                (newMarketingData md session)) st2).
      split; [reflexivity |].
      unfold bind, call, await, invoke.
      destruct (up _ (trace st2) _); simpl; intros; try discriminate; reflexivity.
    - exists st2. split; [symmetry; apply app_nil_r | reflexivity]. }
  destruct Hstep as [st3 [Htrace3 Hstep]].
  unfold bind at 1 in Hok. unfold bind at 1.
  destruct (step st2) as [[[] | e] st3'] eqn:Hmk; try discriminate Hok.
  specialize (Hstep eq_refl). injection Hstep as ->.
  (* the add-item call *)
  unfold bind at 1 in Hok. unfold bind at 1.
  unfold call at 1, await at 1, invoke at 1 in Hok.
  unfold call at 1, await at 1, invoke at 1.
  destruct (up _ (trace st3) add) as [e | added | e] eqn:Hadd; try discriminate Hok.
  change {| trace := trace st3 ++ [ev add]; cookies := cookies st3 |}
    with (record_request add st3) in *.
  (* the follow-up calls *)
  unfold bind at 1 in Hok. unfold bind at 1.
  pose proof (addOptionsForItems_ok up withOptions added previousItems
                (record_request add st3)) as Hattach.
  destruct (addOptionsForItems up withOptions added previousItems
              (record_request add st3)) as [[[] | e] st4]; try discriminate Hok.
  specialize (Hattach tt eq_refl). simpl in Hattach. subst st4.
  exists added. cbv zeta.
  assert (Hbefore : trace st ++ [ev orderFormReq; ev getSessionReq]
                    ++ marketing = trace st3).
  { rewrite Htrace3. unfold st2, st1, record_request. simpl.
    rewrite <- !app_assoc. reflexivity. }
  split; [reflexivity |]. split; [| split; [| split]].
  - rewrite Hbefore. exact Hadd.
  - destruct withOptions as [|item rest'] eqn:Hw.
    + simpl in *. rewrite <- Hbefore, <- !app_assoc. reflexivity.
    + cbn [length Nat.eqb] in *.
      rewrite call_state. unfold record_request. cbn [trace refetch_calls].
      rewrite <- Hbefore, <- !app_assoc. reflexivity.
  - intros Hnil. rewrite Hnil in Hok. simpl in Hok. unfold ret in Hok.
    simpl in Hok. congruence.
  - intros Hsome. destruct withOptions as [|item rest']; [congruence |].
    cbn [length Nat.eqb] in Hok.
    unfold call, await, invoke in Hok. cbn [trace] in Hok.
    match goal with
    | |- answer up _ ?t _ = _ =>
        replace t with ((trace st3 ++ [ev add])
                        ++ attach_calls added previousItems (item :: rest'))
          by (rewrite <- Hbefore, <- !app_assoc; reflexivity)
    end.
    destruct (answer up _ (_ ++ _) orderFormReq) as [e | v | e]; simpl in Hok;
      try discriminate Hok. congruence.
Qed.

(** The code's test [!!options && options.length > 0] holds exactly of
    the items whose [options] is a non-empty list. *)
Lemma has_options_carries item :
  has_options item = true <-> carries_options item.
Proof.
  unfold has_options, carries_options.
  destruct (options item) as [[|o os] |]; split;
    try discriminate; try (intros [o' [os' H]]; discriminate); eauto.
Qed.

Lemma filter_has_options (l : list OrderFormItemInput) :
  List.filter has_options l = filter carries_options l.
Proof.
  induction l as [|item l IH]; [reflexivity |].
  simpl. rewrite filter_cons, IH.
  destruct (has_options item) eqn:E.
  - apply has_options_carries in E. rewrite decide_True by exact E. reflexivity.
  - rewrite decide_False; [reflexivity |].
    intros H. apply has_options_carries in H. congruence.
Qed.

Lemma no_options_filter (l : list OrderFormItemInput) :
  Forall (fun item => options item = None \/ options item = Some []) l ->
  filter carries_options l = [].
Proof.
  induction 1 as [|item l Hitem _ IH]; [reflexivity |].
  rewrite filter_cons, IH, decide_False; [reflexivity |].
  intros [o [os H]]. destruct Hitem as [H' | H']; congruence.
Qed.

Lemma some_options_filter (l : list OrderFormItemInput) :
  Exists carries_options l -> filter carries_options l <> [].
Proof.
  induction 1 as [item l Hitem | item l _ IH]; rewrite filter_cons.
  - rewrite decide_True by exact Hitem. discriminate.
  - destruct (decide (carries_options item)); [discriminate | exact IH].
Qed.

(** C1: on a run of [addItem] that returns, with an order-form id and a
    list of items, the calls made are the two fetches, at most one
    marketing update, and then one add-item call with every item stripped
    of its options.  If every item has no [options] or an empty list,
    nothing follows the add-item call and its answer is returned.  If
    some item has a non-empty [options] list, the add-item call is
    followed by one follow-up call for each such item, in order, and then
    by one order-form fetch, whose answer is returned. *)
Theorem addItem_calls :
  forall (upstream : Upstream) (args : AddItemArgs) (orderFormId : string)
         (given : list OrderFormItemInput) (st : State) (returned : OrderForm),
    arg_orderFormId args = Some orderFormId ->
    arg_items args = Some given ->
    fst (addItem upstream args st) = Ok returned ->
    let add := addItemReq orderFormId (map rest given) (arg_salesChannel args) in
    exists (before : list event) (fetched added : OrderForm),
      upstream _ (trace st) orderFormReq = Fulfilled fetched
      /\ (before = [ev orderFormReq; ev getSessionReq]
          \/ exists payload,
               before = [ev orderFormReq; ev getSessionReq;
                         ev (updateOrderFormMarketingDataReq orderFormId payload)])
      /\ upstream _ (trace st ++ before) add = Fulfilled added
      /\ (Forall (fun item => options item = None \/ options item = Some []) given ->
          trace (snd (addItem upstream args st)) = trace st ++ before ++ [ev add]
          /\ returned = added)
      /\ (Exists (fun item => exists o os, options item = Some (o :: os)) given ->
          let attach :=
            map (fun item => ev (addOptionsReq item added (items fetched)))
              (filter (fun item => exists o os, options item = Some (o :: os))
                 given) in
          trace (snd (addItem upstream args st))
          = trace st ++ before ++ [ev add] ++ attach ++ [ev orderFormReq]
          /\ upstream _ (trace st ++ before ++ [ev add] ++ attach) orderFormReq
             = Fulfilled returned).
Proof.
  intros up args ofid its st returned Hid Hits Hok add.
  destruct (addItem_run_shape up args ofid its st returned Hid Hits Hok)
    as [oform [session [added H]]].
  cbv zeta in H. destruct H as [Hform [Hadd [Htrace [Hnone Hsome]]]].
  rewrite filter_has_options in Htrace, Hnone, Hsome.
  fold add in Hadd, Htrace, Hsome.
  set (marketing :=
         if truthy (shouldUpdateMarketingData (marketingData oform) session)
         then [ev (updateOrderFormMarketingDataReq ofid
                     (newMarketingData (marketingData oform) session))]
         else []) in *.
  exists ([ev orderFormReq; ev getSessionReq] ++ marketing), oform, added.
  split; [exact Hform |]. split; [| split; [exact Hadd | split]].
  - unfold marketing. destruct (truthy _); [right; eexists |left]; reflexivity.
  - intros Hall. apply no_options_filter in Hall.
    change (filter carries_options its = []) in Hall.
    rewrite Hall in Htrace, Hnone. split; [| apply Hnone; reflexivity].
    rewrite Htrace. simpl. rewrite ?app_nil_r. reflexivity.
  - intros Hex. apply some_options_filter in Hex.
    change (filter carries_options its <> []) in Hex.
    cbv zeta.
    change (filter (fun item => exists o os, options item = Some (o :: os)) its)
      with (filter carries_options its).
    split; [| exact (Hsome Hex)].
    rewrite Htrace. unfold attach_calls.
    destruct (filter carries_options its); [congruence | reflexivity].
Qed.

Lemma addItem_calls_witness :
  exists (before : list event) (fetched added : OrderForm),
    scripted all_fine _ (trace initial) orderFormReq = Fulfilled fetched
    /\ (before = [ev orderFormReq; ev getSessionReq]
        \/ exists payload,
             before = [ev orderFormReq; ev getSessionReq;
                       ev (updateOrderFormMarketingDataReq "cart" payload)])
    /\ scripted all_fine _ (trace initial ++ before)
         (addItemReq "cart"
            (map rest [plain_item; item_empty_options; item_with_options])
            PUndefined)
       = Fulfilled added
    /\ (Forall (fun item => options item = None \/ options item = Some [])
          [plain_item; item_empty_options; item_with_options] ->
        trace (snd (addItem (scripted all_fine)
                      (add_args (Some [plain_item; item_empty_options;
                                       item_with_options])) initial))
        = trace initial ++ before
          ++ [ev (addItemReq "cart"
                    (map rest [plain_item; item_empty_options; item_with_options])
                    PUndefined)]
        /\ sample_orderForm "cart-refetched" = added)
    /\ (Exists (fun item => exists o os, options item = Some (o :: os))
          [plain_item; item_empty_options; item_with_options] ->
        trace (snd (addItem (scripted all_fine)
                      (add_args (Some [plain_item; item_empty_options;
                                       item_with_options])) initial))
        = trace initial ++ before
          ++ [ev (addItemReq "cart"
                    (map rest [plain_item; item_empty_options; item_with_options])
                    PUndefined)]
          ++ map (fun item => ev (addOptionsReq item added (items fetched)))
               (filter (fun item => exists o os, options item = Some (o :: os))
                  [plain_item; item_empty_options; item_with_options])
          ++ [ev orderFormReq]
        /\ scripted all_fine _
             (trace initial ++ before
              ++ [ev (addItemReq "cart"
                        (map rest [plain_item; item_empty_options;
                                   item_with_options])
                        PUndefined)]
              ++ map (fun item => ev (addOptionsReq item added (items fetched)))
                   (filter (fun item => exists o os, options item = Some (o :: os))
                      [plain_item; item_empty_options; item_with_options]))
             orderFormReq = Fulfilled (sample_orderForm "cart-refetched")).
Proof.
  apply (addItem_calls (scripted all_fine)
           (add_args (Some [plain_item; item_empty_options; item_with_options]))
           "cart" [plain_item; item_empty_options; item_with_options] initial
           (sample_orderForm "cart-refetched") eq_refl eq_refl).
  vm_compute. reflexivity.
Defined.

(** An item whose [options] is the empty list is added like an item
    without options: no follow-up call, no re-fetch. *)
Example addItem_empty_options :
  addItem (scripted all_fine)
    (add_args (Some [plain_item; item_empty_options])) initial
  = (Ok (sample_orderForm "cart-added"),
     {| trace := [ ev orderFormReq; ev getSessionReq;
                   ev (addItemReq "cart" [rest plain_item; rest item_empty_options]
                         PUndefined) ];
        cookies := [] |}).
Proof. vm_compute. reflexivity. Qed.

(** The two runs of the specification on the scripted upstream. *)
Example addItem_without_options :
  addItem (scripted all_fine) (add_args (Some [plain_item])) initial
  = (Ok (sample_orderForm "cart-added"),
     {| trace := [ ev orderFormReq; ev getSessionReq;
                   ev (addItemReq "cart" [rest plain_item] PUndefined) ];
        cookies := [] |}).
Proof. vm_compute. reflexivity. Qed.

Example addItem_with_options :
  addItem (scripted all_fine)
    (add_args (Some [plain_item; item_with_options])) initial
  = (Ok (sample_orderForm "cart-refetched"),
     {| trace := [ ev orderFormReq; ev getSessionReq;
                   ev (addItemReq "cart" [rest plain_item; rest item_with_options]
                         PUndefined);
                   ev (addOptionsReq item_with_options
                         (sample_orderForm "cart-added") []);
                   ev orderFormReq ];
        cookies := [] |}).
Proof. vm_compute. reflexivity. Qed.

(** * Further properties of the resolvers *)

(** ** The rewrite and the cookie name *)

Lemma strip_prefix_Some p s y :
  strip_prefix p s = Some y -> s = p +:+ y.
Proof.
  revert s. induction p as [|a p IH]; intros s H; simpl in H.
  - injection H as ->. reflexivity.
  - destruct s as [|b s]; [discriminate |].
    destruct (Ascii.eqb a b) eqn:E; [| discriminate].
    apply Ascii.eqb_eq in E. subst b.
    rewrite append_cons. f_equal. apply IH, H.
Qed.

Lemma match_at_starts s r :
  match_at s = Some r -> exists y, s = "domain=" +:+ y.
Proof.
  unfold match_at. intros H.
  destruct (strip_prefix "domain=" s) as [y |] eqn:E; [| discriminate].
  exists y. apply strip_prefix_Some, E.
Qed.

Lemma split_head_replace_first host before s :
  split_head "=" (replace_first ("domain=" +:+ host +:+ ";") before s)
  = split_head "=" s.
Proof.
  revert before. induction s as [|c s IH]; intros before.
  - reflexivity.
  - rewrite replace_first_eq.
    destruct (match_at (String c s)) as [[[matched cap] suffix] |] eqn:E.
    + destruct (match_at_starts _ _ E) as [y ->]. reflexivity.
    + simpl. destruct (Ascii.eqb c "="); [reflexivity |].
      f_equal. apply IH.
Qed.

(** X1: the rewrite never touches the cookie name, whatever the host; a
    line is on the whitelist after the rewrite exactly when it was
    before. *)
Theorem replaceDomain_keeps_cookie_name :
  forall (host cookie : string),
    cookie_name (replaceDomain host cookie) = cookie_name cookie
    /\ forall CC,
         isWhitelistedSetCookie CC (replaceDomain host cookie)
         = isWhitelistedSetCookie CC cookie.
Proof.
  intros host cookie.
  assert (H : cookie_name (replaceDomain host cookie) = cookie_name cookie).
  { unfold cookie_name, replaceDomain. apply split_head_replace_first. }
  split; [exact H |].
  intros CC. unfold isWhitelistedSetCookie. unfold cookie_name in H.
  rewrite H. reflexivity.
Qed.

(** ** What the rewrite leaves alone *)

Lemma lazy_tail_decompose r m cap suffix :
  lazy_tail r = Some (m, cap, suffix) ->
  r = m +:+ cap +:+ suffix
  /\ all_chars value_char m = true
  /\ (cap = ";" \/ (cap = "" /\ suffix = "")).
Proof.
  revert m. induction r as [|c r IH]; intros m H; simpl in H.
  - injection H as <- <- <-. auto.
  - destruct (Ascii.eqb c ";") eqn:E1.
    + injection H as <- <- <-. apply Ascii.eqb_eq in E1. subst c. auto.
    + destruct (is_line_terminator c) eqn:E2; [discriminate |].
      destruct (lazy_tail r) as [[[m' cap'] suffix'] |]; [| discriminate].
      injection H as <- <- <-.
      destruct (IH m' eq_refl) as [Hr [Hm Hcap]].
      rewrite append_cons, <- Hr. simpl. unfold value_char at 1.
      rewrite E1, E2, Hm. auto.
Qed.

Lemma match_at_decompose s matched cap suffix :
  match_at s = Some (matched, cap, suffix) ->
  exists c m,
    matched = "domain=" +:+ String c m +:+ cap
    /\ s = "domain=" +:+ String c (m +:+ cap +:+ suffix)
    /\ is_line_terminator c = false
    /\ all_chars value_char m = true
    /\ (cap = ";" \/ (cap = "" /\ suffix = "")).
Proof.
  unfold match_at. intros H.
  destruct (strip_prefix "domain=" s) as [[|c r] |] eqn:E; try discriminate.
  destruct (is_line_terminator c) eqn:Hc; [discriminate |].
  destruct (lazy_tail r) as [[[m cap'] suffix'] |] eqn:Hl; [| discriminate].
  injection H as <- <- <-.
  destruct (lazy_tail_decompose _ _ _ _ Hl) as [Hr [Hm Hcap]].
  exists c, m. apply strip_prefix_Some in E. subst r. auto.
Qed.

Lemma replace_first_one_segment host before cookie :
  all_chars not_dollar host = true ->
  replace_first ("domain=" +:+ host +:+ ";") before cookie = cookie
  \/ exists p c m suffix,
       is_line_terminator c = false
       /\ all_chars value_char m = true
       /\ (cookie = p +:+ "domain=" +:+ String c m +:+ ";" +:+ suffix
           \/ (cookie = p +:+ "domain=" +:+ String c m /\ suffix = ""))
       /\ replace_first ("domain=" +:+ host +:+ ";") before cookie
          = p +:+ "domain=" +:+ host +:+ ";" +:+ suffix.
Proof.
  intros Hhost. revert before.
  induction cookie as [|a s IH]; intros before; [left; reflexivity |].
  rewrite replace_first_eq.
  destruct (match_at (String a s)) as [[[matched cap] suffix] |] eqn:E.
  - right. destruct (match_at_decompose _ _ _ _ E) as [c [m [_ [Hs [Hc [Hm Hcap]]]]]].
    exists "", c, m, suffix.
    rewrite (getSubstitution_literal _ _ _ _ _ (template_literal host Hhost)).
    rewrite Hs. repeat split; try assumption.
    + destruct Hcap as [-> | [-> ->]]; [left | right]; [reflexivity |].
      split; [| reflexivity]. rewrite !append_nil_l, !string_app_nil_r. reflexivity.
    + rewrite !string_app_assoc. reflexivity.
  - destruct (IH (before +:+ String a "")) as [Hsame | [p [c [m [suffix H]]]]].
    + left. rewrite Hsame. reflexivity.
    + right. destruct H as [Hc [Hm [Hshape Hres]]].
      exists (String a p), c, m, suffix. repeat split; try assumption.
      * destruct Hshape as [-> | [-> ->]]; [left | right]; rewrite ?append_cons; auto.
      * rewrite Hres, !append_cons. reflexivity.
Qed.

(** X2: with a host free of [$], [replaceDomain] either returns the
    cookie string as it is or replaces one segment of it: the string
    before the segment is kept, the segment is [domain=] with a non-empty
    value free of line terminators, ended by [;] or by the end of the
    string, and what follows the segment is kept; the segment becomes
    [domain=], the host and [;]. *)
Theorem replaceDomain_replaces_one_segment :
  forall (host cookie : string),
    all_chars not_dollar host = true ->
    replaceDomain host cookie = cookie
    \/ exists p c m suffix,
         is_line_terminator c = false
         /\ all_chars value_char m = true
         /\ (cookie = p +:+ "domain=" +:+ String c m +:+ ";" +:+ suffix
             \/ (cookie = p +:+ "domain=" +:+ String c m /\ suffix = ""))
         /\ replaceDomain host cookie
            = p +:+ "domain=" +:+ host +:+ ";" +:+ suffix.
Proof.
  intros host cookie Hhost. apply replace_first_one_segment, Hhost.
Qed.

Lemma replaceDomain_replaces_one_segment_witness :
  replaceDomain "shop.example" "a=1; domain=.vtex.com"
  = "a=1; domain=.vtex.com"
  \/ exists p c m suffix,
       is_line_terminator c = false
       /\ all_chars value_char m = true
       /\ ("a=1; domain=.vtex.com" = p +:+ "domain=" +:+ String c m +:+ ";" +:+ suffix
           \/ ("a=1; domain=.vtex.com" = p +:+ "domain=" +:+ String c m /\ suffix = ""))
       /\ replaceDomain "shop.example" "a=1; domain=.vtex.com"
          = p +:+ "domain=" +:+ "shop.example" +:+ ";" +:+ suffix.
Proof.
  apply (replaceDomain_replaces_one_segment "shop.example" "a=1; domain=.vtex.com").
  vm_compute. reflexivity.
Defined.

(** ** Rewriting twice *)

Lemma lazy_tail_app a y :
  all_chars value_char a = true ->
  lazy_tail (a +:+ y)
  = match lazy_tail y with
    | Some (m, cap, suffix) => Some (a +:+ m, cap, suffix)
    | None => None
    end.
Proof.
  induction a as [|c a IH]; intros H.
  - rewrite append_nil_l. destruct (lazy_tail y) as [[[m cap] suffix] |]; reflexivity.
  - simpl in H. apply andb_true_iff in H. destruct H as [Hc Ha].
    destruct (value_char_inv c Hc) as [H1 H2].
    rewrite append_cons. simpl. rewrite H1, H2, (IH Ha).
    destruct (lazy_tail y) as [[[m cap] suffix] |]; reflexivity.
Qed.

Lemma lazy_tail_value c m cap suffix :
  is_line_terminator c = false ->
  all_chars value_char m = true ->
  (cap = ";" \/ (cap = "" /\ suffix = "")) ->
  is_Some (lazy_tail (String c (m +:+ cap +:+ suffix))).
Proof.
  intros Hc Hm Hcap. simpl.
  destruct (Ascii.eqb c ";"); [eexists; reflexivity |].
  rewrite Hc, (lazy_tail_app m _ Hm).
  destruct Hcap as [-> | [-> ->]]; eexists; reflexivity.
Qed.

(** The scan [.+?(;|$)] succeeds from the head of any text on which the
    whole pattern matches. *)
Lemma lazy_tail_of_match s r :
  match_at s = Some r -> is_Some (lazy_tail s).
Proof.
  destruct r as [[matched cap] suffix]. intros H.
  destruct (match_at_decompose _ _ _ _ H) as [c [m [_ [-> [Hc [Hm Hcap]]]]]].
  change ("domain=" +:+ String c (m +:+ cap +:+ suffix))
    with ("domain" +:+ String "=" (String c (m +:+ cap +:+ suffix))).
  rewrite lazy_tail_app by reflexivity.
  destruct (lazy_tail_value c m cap suffix Hc Hm Hcap) as [[[m' cap'] suffix'] Hl].
  simpl. simpl in Hl. rewrite Hl. eexists; reflexivity.
Qed.

(** If the scan succeeds on the rewritten text it succeeds on the text. *)
Lemma lazy_tail_replace_first template before x :
  is_Some (lazy_tail (replace_first template before x)) -> is_Some (lazy_tail x).
Proof.
  revert before. induction x as [|c x IH]; intros before H.
  - eexists; reflexivity.
  - rewrite replace_first_eq in H.
    destruct (match_at (String c x)) as [r |] eqn:E.
    + eapply lazy_tail_of_match, E.
    + simpl in H |- *. destruct (Ascii.eqb c ";"); [eexists; reflexivity |].
      destruct (is_line_terminator c); [destruct H; discriminate |].
      destruct (lazy_tail (replace_first _ _ x)) as [[[m cap] suffix] |] eqn:El;
        [| destruct H; discriminate].
      destruct (IH (before +:+ String c "")) as [[[m' cap'] suffix'] ->].
      { rewrite El. eexists; reflexivity. }
      eexists; reflexivity.
Qed.

(** A character of the rewritten text that is not the [d] of a fresh
    [domain=] is a character of the text. *)
Lemma replace_first_head host before s a r :
  replace_first ("domain=" +:+ host +:+ ";") before s = String a r ->
  Ascii.eqb a "d" = false ->
  exists s1,
    s = String a s1
    /\ r = replace_first ("domain=" +:+ host +:+ ";") (before +:+ String a "") s1.
Proof.
  intros H Ha. rewrite replace_first_eq in H.
  destruct (match_at s) as [[[matched cap] suffix] |].
  - exfalso. injection H as <- _. discriminate Ha.
  - destruct s as [|c s1]; [discriminate |].
    injection H as -> <-. eauto.
Qed.

Lemma strip_prefix_cons a p b s :
  strip_prefix (String a p) (String b s)
  = if Ascii.eqb a b then strip_prefix p s else None.
Proof. reflexivity. Qed.

(** A prefix without [d] read off the rewritten text is read off the
    text, and what follows is the rewriting of what follows. *)
Lemma strip_prefix_replace_first host pat :
  all_chars (fun a => negb (Ascii.eqb a "d")) pat = true ->
  forall before s y,
    strip_prefix pat (replace_first ("domain=" +:+ host +:+ ";") before s) = Some y ->
    exists before' s',
      s = pat +:+ s'
      /\ y = replace_first ("domain=" +:+ host +:+ ";") before' s'.
Proof.
  induction pat as [|a pat IH]; intros Hpat before s y H.
  - simpl in H. injection H as <-. exists before, s. auto.
  - simpl in Hpat. apply andb_true_iff in Hpat. destruct Hpat as [Ha Hpat].
    apply negb_true_iff in Ha.
    destruct (replace_first _ before s) as [|b r] eqn:R; [discriminate |].
    rewrite strip_prefix_cons in H.
    destruct (Ascii.eqb a b) eqn:Eab; [| discriminate].
    apply Ascii.eqb_eq in Eab. subst b.
    destruct (replace_first_head _ _ _ _ _ R Ha) as [s1 [-> ->]].
    destruct (IH Hpat _ _ _ H) as [before' [s' [-> ->]]].
    exists before', s'. rewrite append_cons. auto.
Qed.

(** A match on the rewritten text, one character in, is a match on the
    text. *)
Lemma match_at_replace_first host before c s :
  is_Some (match_at (String c (replace_first ("domain=" +:+ host +:+ ";") before s))) ->
  is_Some (match_at (String c s)).
Proof.
  intros [res H]. unfold match_at in H.
  rewrite strip_prefix_cons in H.
  destruct (Ascii.eqb "d" c) eqn:Ec; [| discriminate].
  apply Ascii.eqb_eq in Ec. subst c.
  destruct (strip_prefix "omain=" (replace_first _ before s)) as [[|d1 r] |] eqn:E;
    try discriminate.
  destruct (is_line_terminator d1) eqn:Hd1; [discriminate |].
  destruct (lazy_tail r) as [scan |] eqn:Hscan; [| discriminate]. clear H res.
  destruct (strip_prefix_replace_first host "omain=" eq_refl _ _ _ E)
    as [before' [s6 [-> E6]]].
  unfold match_at.
  change (strip_prefix "domain=" (String "d" ("omain=" +:+ s6))) with (Some s6).
  cbv beta iota.
  rewrite replace_first_eq in E6.
  destruct (match_at s6) as [[[matched cap] suffix] |] eqn:M6.
  - destruct (match_at_decompose _ _ _ _ M6) as [c [m [_ [Hs6 [Hc [Hm Hcap]]]]]].
    rewrite Hs6.
    change ("domain=" +:+ String c (m +:+ cap +:+ suffix))
      with (String "d" ("omain=" +:+ String c (m +:+ cap +:+ suffix))).
    cbv beta iota.
    change (is_line_terminator "d") with false. cbv iota.
    rewrite (lazy_tail_app "omain=") by reflexivity.
    destruct (lazy_tail_value c m cap suffix Hc Hm Hcap) as [[[m' cap'] suffix'] ->].
    eexists; reflexivity.
  - destruct s6 as [|d s7]; [discriminate |].
    injection E6 as -> ->. rewrite Hd1.
    destruct (lazy_tail_replace_first _ _ s7 (ex_intro _ scan Hscan))
      as [[[m' cap'] suffix'] ->].
    eexists; reflexivity.
Qed.

Lemma replace_first_idempotent host :
  host <> "" ->
  all_chars value_char host = true ->
  all_chars not_dollar host = true ->
  forall s before before',
    replace_first ("domain=" +:+ host +:+ ";") before'
      (replace_first ("domain=" +:+ host +:+ ";") before s)
    = replace_first ("domain=" +:+ host +:+ ";") before s.
Proof.
  intros Hne Hvalue Hdollar.
  destruct host as [|h0 h]; [congruence |].
  simpl in Hvalue. apply andb_true_iff in Hvalue. destruct Hvalue as [Hh0 Hh].
  pose proof (template_literal (String h0 h) Hdollar) as Hlit.
  induction s as [|c s IH]; intros before before'; [reflexivity |].
  rewrite (replace_first_eq _ before (String c s)).
  destruct (match_at (String c s)) as [[[matched cap] suffix] |] eqn:E.
  - rewrite (getSubstitution_literal _ _ _ _ _ Hlit).
    rewrite replace_first_eq.
    replace (("domain=" +:+ String h0 h +:+ ";") +:+ suffix)
      with ("domain=" +:+ String h0 (h +:+ String ";" suffix))
      by (rewrite !string_app_assoc; reflexivity).
    rewrite (match_at_domain_semicolon h0 h suffix Hh0 Hh).
    rewrite (getSubstitution_literal _ _ _ _ _ Hlit), !string_app_assoc.
    reflexivity.
  - rewrite replace_first_eq.
    destruct (match_at (String c (replace_first _ _ s))) as [r |] eqn:E2.
    + destruct (match_at_replace_first (String h0 h) _ c s (ex_intro _ r E2))
        as [r' Hr'].
      congruence.
    + f_equal. apply IH.
Qed.

(** X3: with a non-empty host made of characters other than [;], [$]
    and line terminators, rewriting the domain a second time changes
    nothing, whatever the cookie string. *)
Theorem replaceDomain_idempotent :
  forall (host cookie : string),
    host <> "" ->
    all_chars value_char host = true ->
    all_chars not_dollar host = true ->
    replaceDomain host (replaceDomain host cookie) = replaceDomain host cookie.
Proof.
  intros host cookie Hne Hvalue Hdollar. unfold replaceDomain.
  apply replace_first_idempotent; assumption.
Qed.

Lemma replaceDomain_idempotent_witness :
  replaceDomain "shop.example"
    (replaceDomain "shop.example" ".ASPXAUTH=tok; domain=.vtex.com; path=/")
  = replaceDomain "shop.example" ".ASPXAUTH=tok; domain=.vtex.com; path=/".
Proof.
  apply (replaceDomain_idempotent "shop.example"
           ".ASPXAUTH=tok; domain=.vtex.com; path=/");
    [discriminate | vm_compute; reflexivity | vm_compute; reflexivity].
Defined.

(** ** Names on the whitelist *)

Lemma split_head_of_name sep n rest :
  all_chars (fun c => negb (Ascii.eqb c sep)) n = true ->
  split_head sep n = n /\ split_head sep (n +:+ String sep rest) = n.
Proof.
  induction n as [|a n IH]; intros H.
  - rewrite append_nil_l. simpl. rewrite Ascii.eqb_refl. auto.
  - simpl in H. apply andb_true_iff in H. destruct H as [Ha Hn].
    apply negb_true_iff in Ha. destruct (IH Hn) as [IH1 IH2].
    rewrite append_cons. simpl. rewrite Ha, IH1, IH2. auto.
Qed.

Lemma split_head_is_prefix sep line :
  line = split_head sep line
  \/ exists rest, line = split_head sep line +:+ String sep rest.
Proof.
  induction line as [|a line IH]; [left; reflexivity |].
  simpl. destruct (Ascii.eqb a sep) eqn:E.
  - right. apply Ascii.eqb_eq in E. subst a. exists line. reflexivity.
  - destruct IH as [IH | [rest IH]].
    + left. congruence.
    + right. exists rest. rewrite append_cons. congruence.
Qed.

(** X4: when [CHECKOUT_COOKIE] has no [=] in it, a Set-Cookie line is on
    the whitelist exactly when it is one of the two names, alone or
    followed by [=]; a name that only begins like a whitelisted one does
    not pass. *)
Theorem isWhitelistedSetCookie_name_then_equals :
  forall (CC line : string),
    all_chars not_equals_sign CC = true ->
    (isWhitelistedSetCookie CC line = true
     <-> exists n,
           (n = CC \/ n = ".ASPXAUTH")
           /\ (line = n \/ exists rest, line = n +:+ "=" +:+ rest)).
Proof.
  intros CC line HCC. rewrite isWhitelistedSetCookie_spec. unfold cookie_name.
  split.
  - intros H. exists (split_head "=" line). split.
    + exact H.
    + apply split_head_is_prefix.
  - intros [n [Hn Hline]].
    assert (Hname : all_chars (fun c => negb (Ascii.eqb c "=")) n = true).
    { destruct Hn as [-> | ->]; [exact HCC | reflexivity]. }
    destruct (split_head_of_name "=" n "" Hname) as [H1 _].
    destruct Hline as [-> | [rest ->]].
    + rewrite H1. exact Hn.
    + destruct (split_head_of_name "=" n rest Hname) as [_ H2].
      change (n +:+ "=" +:+ rest) with (n +:+ String "=" rest).
      rewrite H2. exact Hn.
Qed.

Lemma isWhitelistedSetCookie_name_then_equals_witness :
  isWhitelistedSetCookie "checkout.vtex.com" ".ASPXAUTH=tok; path=/" = true
  <-> exists n,
        (n = "checkout.vtex.com" \/ n = ".ASPXAUTH")
        /\ (".ASPXAUTH=tok; path=/" = n
            \/ exists rest, ".ASPXAUTH=tok; path=/" = n +:+ "=" +:+ rest).
Proof.
  apply (isWhitelistedSetCookie_name_then_equals "checkout.vtex.com"
           ".ASPXAUTH=tok; path=/").
  vm_compute. reflexivity.
Defined.

(** ** More on the marketing decision *)

Lemma truthy_jtrue_js_and a b :
  truthy (js_and a (JPrim (PBool b))) = true <-> js_and a (JPrim (PBool b)) = jtrue.
Proof.
  rewrite js_and_bool_true, truthy_js_and. simpl. apply andb_true_iff.
Qed.

(** X5: the value [shouldUpdateMarketingData] returns is [true] or a
    falsy value, so the [if] of [addItem] takes its branch exactly when
    the function returns [true]: some session UTM field is truthy and some
    stored field is not strictly equal to the session's. *)
Theorem shouldUpdateMarketingData_truthy_iff_true :
  forall (md : option OrderFormMarketingData) (s : SessionFields),
    (truthy (shouldUpdateMarketingData md s) = true
     <-> shouldUpdateMarketingData md s = jtrue)
    /\ (truthy (shouldUpdateMarketingData md s) = true <-> code_shouldUpdate md s).
Proof.
  intros md s.
  assert (H : truthy (shouldUpdateMarketingData md s) = true
              <-> shouldUpdateMarketingData md s = jtrue).
  { unfold shouldUpdateMarketingData. apply truthy_jtrue_js_and. }
  split; [exact H |].
  rewrite H. apply shouldUpdateMarketingData_code.
Qed.

Lemma path2_missing k1 k2 (s : SessionFields) :
  s !! k1 = None -> path2 k1 k2 s = jundefined.
Proof. unfold path2. intros ->. reflexivity. Qed.

Lemma shouldUpdateMarketingData_no_utm_objects md (s : SessionFields) :
  s !! "utmParams" = None ->
  s !! "utmiParams" = None ->
  shouldUpdateMarketingData md s = jundefined.
Proof.
  intros H1 H2.
  unfold shouldUpdateMarketingData, getSessionMarketingParams. simpl.
  rewrite !(path2_missing "utmParams") by exact H1.
  rewrite !(path2_missing "utmiParams") by exact H2.
  reflexivity.
Qed.

(** X6: a session object with neither [utmParams] nor [utmiParams], the
    empty session among them, never triggers the update, whatever is
    stored: the function returns [undefined]. *)
Theorem shouldUpdateMarketingData_without_utm :
  forall (md : option OrderFormMarketingData) (s : SessionFields),
    s !! "utmParams" = None ->
    s !! "utmiParams" = None ->
    shouldUpdateMarketingData md s = jundefined.
Proof.
  intros md s H1 H2. apply shouldUpdateMarketingData_no_utm_objects; assumption.
Qed.

Lemma shouldUpdateMarketingData_without_utm_witness :
  shouldUpdateMarketingData (Some stored_full) ∅ = jundefined.
Proof.
  apply (shouldUpdateMarketingData_without_utm (Some stored_full) ∅);
    apply lookup_empty.
Defined.

Lemma prop_or_null_not_undefined o k : prop_or_null o k <> jundefined.
Proof.
  unfold prop_or_null.
  destruct (o !! k) as [[[| | b | s] | l | m] |]; discriminate.
Qed.

Lemma strict_neq_undefined v : v <> jundefined -> strict_neq v jundefined = true.
Proof.
  destruct v as [[| | b | s] | l | m]; intros H; try reflexivity. congruence.
Qed.

(** X7: a session field that is absent reads as [undefined], which no
    stored field equals once defaulted to [null]; so when one of the six
    session fields is absent, the function returns [true] as soon as
    another is truthy, even if every field the session does carry equals
    the stored one. *)
Theorem shouldUpdateMarketingData_absent_field_differs :
  forall (md : option OrderFormMarketingData) (s : SessionFields),
    Exists (fun p => snd p = jundefined) (utm_pairs md s) ->
    (shouldUpdateMarketingData md s = jtrue
     <-> Exists (fun p => truthy (snd p) = true) (utm_pairs md s)).
Proof.
  intros md s Habsent. rewrite shouldUpdateMarketingData_code.
  unfold code_shouldUpdate. split; [tauto |].
  intros H. split; [exact H |].
  apply Exists_exists in Habsent. destruct Habsent as [p [Hin Hp]].
  apply Exists_exists. exists p. split; [exact Hin |].
  rewrite Hp. apply strict_neq_undefined.
  unfold utm_pairs in Hin.
  repeat (apply elem_of_cons in Hin; destruct Hin as [-> | Hin];
          [apply prop_or_null_not_undefined |]).
  apply elem_of_nil in Hin. contradiction.
Qed.

Lemma shouldUpdateMarketingData_absent_field_differs_witness :
  shouldUpdateMarketingData (Some {[ "utmSource" := jstr "a" ]}) session_source_a
  = jtrue
  <-> Exists (fun p => truthy (snd p) = true)
        (utm_pairs (Some {[ "utmSource" := jstr "a" ]}) session_source_a).
Proof.
  apply (shouldUpdateMarketingData_absent_field_differs
           (Some {[ "utmSource" := jstr "a" ]}) session_source_a).
  apply Exists_cons_tl, Exists_cons_hd. vm_compute. reflexivity.
Defined.

Lemma strict_neq_null_truthy v : truthy v = true -> strict_neq jnull v = true.
Proof. destruct v as [[| | b | s] | l | m]; simpl; intros H; congruence. Qed.

(** X8: on a cart without marketing data ([null], or an object without
    the six UTM properties) the function returns [true] exactly when some
    session UTM field is truthy. *)
Theorem shouldUpdateMarketingData_nothing_stored :
  forall (md : option OrderFormMarketingData) (s : SessionFields),
    Forall (fun k => default ∅ md !! k = None) utm_keys ->
    (shouldUpdateMarketingData md s = jtrue
     <-> Exists (fun v => truthy v = true) (session_utm_values s)).
Proof.
  intros md s Hnone. rewrite shouldUpdateMarketingData_code.
  unfold code_shouldUpdate, session_utm_values, utm_pairs, utm_keys in *.
  repeat (apply Forall_cons in Hnone; destruct Hnone as [? Hnone]).
  unfold prop_or_null. simpl.
  repeat match goal with H : _ !! _ = None |- _ => rewrite H; clear H end.
  rewrite !Exists_cons, !Exists_nil. simpl.
  split; [tauto |].
  intros H. split; [tauto |].
  repeat (destruct H as [H | H];
          [apply strict_neq_null_truthy in H; tauto |]).
  contradiction.
Qed.

Lemma shouldUpdateMarketingData_nothing_stored_witness :
  shouldUpdateMarketingData None session_source_a = jtrue
  <-> Exists (fun v => truthy v = true) (session_utm_values session_source_a).
Proof.
  apply (shouldUpdateMarketingData_nothing_stored None session_source_a).
  vm_compute. repeat constructor.
Defined.

(** ** More on the locale sync *)

Lemma strict_neq_prim_iff p v : strict_neq (JPrim p) v = true <-> v <> JPrim p.
Proof.
  destruct v as [q | l | m]; simpl.
  - rewrite negb_true_iff, bool_decide_eq_false. split; congruence.
  - split; [discriminate | reflexivity].
  - split; [discriminate | reflexivity].
Qed.

Lemma shouldUpdateClientPreferencesData_iff c prefs :
  truthy (shouldUpdateClientPreferencesData c prefs) = true
  <-> prim_truthy c = true
      /\ truthy (prop prefs "locale") = true
      /\ prop prefs "locale" <> JPrim c.
Proof.
  unfold shouldUpdateClientPreferencesData.
  rewrite !truthy_js_and, !andb_true_iff.
  change (truthy (JPrim c)) with (prim_truthy c).
  change (truthy (JPrim (PBool ?b))) with b.
  rewrite strict_neq_prim_iff. tauto.
Qed.

(** X9: the locale sync sends the preferences update exactly when the
    store locale is truthy, the stored locale is truthy and the two are
    not strictly equal; it sends nothing else, leaves the cookies alone
    and never fails: it returns the order form it was given or the one
    the upstream answered the update with. *)
Theorem syncWithStoreLocale_requests :
  forall (upstream : Upstream) (oform : OrderForm) (c : prim) (st : State),
    let wanted :=
      truthy (shouldUpdateClientPreferencesData c (sync_preferences oform c)) in
    (wanted = true
     <-> prim_truthy c = true
         /\ truthy (prop (sync_preferences oform c) "locale") = true
         /\ prop (sync_preferences oform c) "locale" <> JPrim c)
    /\ snd (syncWithStoreLocale upstream oform c st)
       = (if wanted then record_request (sync_update oform c) st else st)
    /\ exists r,
         fst (syncWithStoreLocale upstream oform c st) = Ok r
         /\ (r = oform
             \/ (wanted = true
                 /\ upstream _ (trace st) (sync_update oform c) = Fulfilled r)).
Proof.
  intros up oform c st wanted.
  split; [apply shouldUpdateClientPreferencesData_iff |].
  unfold syncWithStoreLocale. fold (sync_preferences oform c). fold wanted.
  destruct wanted eqn:W.
  - fold (sync_update oform c). unfold try_await, call, await, invoke.
    fold (record_request (sync_update oform c) st).
    destruct (up _ (trace st) (sync_update oform c)) as [e | v | e] eqn:E;
      simpl; split; try reflexivity; eauto.
  - simpl. split; [reflexivity | eauto].
Qed.

(** X10: when the update is sent and answered, the sync returns the
    upstream's order form, and the preferences it sent are the stored
    ones with [locale] set to the store locale, every other preference
    kept. *)
Theorem syncWithStoreLocale_update_answered :
  forall (upstream : Upstream) (oform updated : OrderForm) (c : prim)
         (st : State),
    truthy (shouldUpdateClientPreferencesData c (sync_preferences oform c)) = true ->
    upstream _ (trace st) (sync_update oform c) = Fulfilled updated ->
    syncWithStoreLocale upstream oform c st
    = (Ok updated, record_request (sync_update oform c) st)
    /\ exists stored sent,
         clientPreferencesData oform = Some stored
         /\ sync_update oform c
            = updateOrderFormClientPreferencesDataReq (orderFormId oform) sent
         /\ sent !! "locale" = Some (JPrim c)
         /\ forall k, k <> "locale" -> sent !! k = stored !! k.
Proof.
  intros up oform updated c st Hwanted Hanswer. split.
  - unfold syncWithStoreLocale. fold (sync_preferences oform c).
    rewrite Hwanted. fold (sync_update oform c).
    unfold try_await, call, await, invoke. rewrite Hanswer. reflexivity.
  - destruct (clientPreferencesData oform) as [stored |] eqn:Hstored.
    + exists stored, (<["locale" := JPrim c]> stored).
      split; [reflexivity |]. split.
      * unfold sync_update, sync_preferences. rewrite Hstored. reflexivity.
      * split; [apply lookup_insert_eq |].
        intros k Hk. apply lookup_insert_ne. congruence.
    + exfalso. unfold sync_preferences in Hwanted. rewrite Hstored in Hwanted.
      simpl in Hwanted. rewrite shouldUpdate_default_preferences in Hwanted.
      discriminate.
Qed.

Lemma syncWithStoreLocale_update_answered_witness :
  syncWithStoreLocale (scripted all_fine) cart_en_optin (PStr "pt-BR") initial
  = (Ok (sample_orderForm "cart-locale"),
     record_request (sync_update cart_en_optin (PStr "pt-BR")) initial)
  /\ exists stored sent,
       clientPreferencesData cart_en_optin = Some stored
       /\ sync_update cart_en_optin (PStr "pt-BR")
          = updateOrderFormClientPreferencesDataReq (orderFormId cart_en_optin) sent
       /\ sent !! "locale" = Some (jstr "pt-BR")
       /\ forall k, k <> "locale" -> sent !! k = stored !! k.
Proof.
  apply (syncWithStoreLocale_update_answered (scripted all_fine) cart_en_optin
           (sample_orderForm "cart-locale") (PStr "pt-BR") initial).
  - vm_compute. reflexivity.
  - reflexivity.
Defined.

(** ** More on the [orderForm] query *)

(** X11: when the raw order-form fetch fails, by a rejection or a throw,
    the [orderForm] query ends with that error after this one request:
    no locale update is tried and no cookie is set. *)
Theorem orderForm_raw_failure :
  forall (upstream : Upstream) CC pc (ctx : Context) (st : State) (e : string),
    (upstream _ (trace st) orderFormRawReq = Rejected e
     \/ upstream _ (trace st) orderFormRawReq = Thrown e) ->
    orderForm upstream CC pc ctx st
    = (Err (UpstreamError e), record_request orderFormRawReq st).
Proof.
  intros up CC pc ctx st e H. unfold orderForm, bind, call, await, invoke.
  destruct H as [-> | ->]; reflexivity.
Qed.

Lemma orderForm_raw_failure_witness :
  orderForm (scripted fetches_fail) "checkout.vtex.com" sample_parseCookie
    sample_ctx initial
  = (Err (UpstreamError "502"), record_request orderFormRawReq initial).
Proof.
  apply (orderForm_raw_failure (scripted fetches_fail) "checkout.vtex.com"
           sample_parseCookie sample_ctx initial "502").
  left. reflexivity.
Defined.

(** X12: once the raw order form has arrived, the [orderForm] query
    issues no request, or the one locale update and nothing more.  What
    it returns, when it returns, is the fetched order form if no update
    was sent or the update was not answered, and the update's answer
    otherwise. *)
Theorem orderForm_after_fetch :
  forall (upstream : Upstream) CC pc (ctx : Context) (st : State)
         (raw : RawOrderForm),
    upstream _ (trace st) orderFormRawReq = Fulfilled raw ->
    let st1 := record_request orderFormRawReq st in
    let update := sync_update (data raw) (cultureInfo ctx) in
    let final := trace (snd (orderForm upstream CC pc ctx st)) in
    (final = trace st1 \/ final = trace st1 ++ [ev update])
    /\ forall r,
         fst (orderForm upstream CC pc ctx st) = Ok r ->
         (final = trace st1 /\ r = data raw)
         \/ (final = trace st1 ++ [ev update]
             /\ (upstream _ (trace st1) update = Fulfilled r
                 \/ (r = data raw
                     /\ forall v, upstream _ (trace st1) update <> Fulfilled v))).
Proof.
  intros up CC pc ctx st raw Hraw st1 update final. unfold final.
  rewrite (orderForm_run _ _ _ _ _ _ Hraw). fold st1.
  unfold syncWithStoreLocale.
  fold (sync_preferences (data raw) (cultureInfo ctx)).
  destruct (truthy _).
  - fold (sync_update (data raw) (cultureInfo ctx)). fold update.
    unfold try_await, call, await, invoke.
    destruct (up _ (trace st1) update) as [e | v | e] eqn:E; simpl;
      (split; [right; reflexivity |]); intros r [= <-]; right;
      (split; [reflexivity |]);
      first [left; reflexivity
            | right; split; [reflexivity | intros v'; discriminate]].
  - simpl. split; [left; reflexivity |]. intros r [= <-]. left.
    split; reflexivity.
Qed.

Lemma orderForm_after_fetch_witness :
  (trace (snd (orderForm (scripted locale_update_fails) "checkout.vtex.com"
                 sample_parseCookie sample_ctx initial))
   = trace (record_request orderFormRawReq initial)
   \/ trace (snd (orderForm (scripted locale_update_fails) "checkout.vtex.com"
                    sample_parseCookie sample_ctx initial))
      = trace (record_request orderFormRawReq initial)
        ++ [ev (sync_update (data raw_en) (cultureInfo sample_ctx))])
  /\ forall r,
       fst (orderForm (scripted locale_update_fails) "checkout.vtex.com"
              sample_parseCookie sample_ctx initial) = Ok r ->
       (trace (snd (orderForm (scripted locale_update_fails) "checkout.vtex.com"
                      sample_parseCookie sample_ctx initial))
        = trace (record_request orderFormRawReq initial)
        /\ r = data raw_en)
       \/ (trace (snd (orderForm (scripted locale_update_fails)
                         "checkout.vtex.com" sample_parseCookie sample_ctx
                         initial))
           = trace (record_request orderFormRawReq initial)
             ++ [ev (sync_update (data raw_en) (cultureInfo sample_ctx))]
           /\ (scripted locale_update_fails _
                 (trace (record_request orderFormRawReq initial))
                 (sync_update (data raw_en) (cultureInfo sample_ctx))
               = Fulfilled r
               \/ (r = data raw_en
                   /\ forall v,
                        scripted locale_update_fails _
                          (trace (record_request orderFormRawReq initial))
                          (sync_update (data raw_en) (cultureInfo sample_ctx))
                        <> Fulfilled v))).
Proof.
  apply (orderForm_after_fetch (scripted locale_update_fails) "checkout.vtex.com"
           sample_parseCookie sample_ctx initial raw_en eq_refl).
Defined.

(** X13: the query sets no more cookies than there were Set-Cookie
    lines, and none at all when the answer has no headers or no
    [set-cookie] header. *)
Theorem orderForm_cookie_count :
  forall (upstream : Upstream) CC pc (ctx : Context) (st : State)
         (raw : RawOrderForm),
    upstream _ (trace st) orderFormRawReq = Fulfilled raw ->
    length (cookies (snd (orderForm upstream CC pc ctx st)))
    <= length (cookies st) + length (responseSetCookies (headers raw))
    /\ ((headers raw = None
         \/ exists h, headers raw = Some h /\ h !! "set-cookie" = None) ->
        cookies (snd (orderForm upstream CC pc ctx st)) = cookies st).
Proof.
  intros up CC pc ctx st raw Hraw.
  rewrite (orderForm_run _ _ _ _ _ _ Hraw).
  destruct (syncWithStoreLocale_total up (data raw) (cultureInfo ctx)
              (record_request orderFormRawReq st)) as [r [st' [-> Hcookies]]].
  simpl. rewrite Hcookies. split.
  - rewrite length_app, length_map.
    pose proof (List.filter_length_le (isWhitelistedSetCookie CC)
                  (responseSetCookies (headers raw))).
    simpl. lia.
  - intros [Hnone | [h [Hsome Hkey]]].
    + rewrite Hnone. simpl. apply app_nil_r.
    + rewrite Hsome. simpl. rewrite Hkey. simpl. apply app_nil_r.
Qed.

Lemma orderForm_cookie_count_witness :
  length (cookies (snd (orderForm (scripted all_fine) "checkout.vtex.com"
                          sample_parseCookie sample_ctx initial)))
  <= length (cookies initial) + length (responseSetCookies None)
  /\ ((None = (None : option (gmap string (list string)))
       \/ exists h : gmap string (list string),
            None = Some h /\ h !! "set-cookie" = None) ->
      cookies (snd (orderForm (scripted all_fine) "checkout.vtex.com"
                      sample_parseCookie sample_ctx initial)) = cookies initial).
Proof.
  apply (orderForm_cookie_count (scripted all_fine) "checkout.vtex.com"
           sample_parseCookie sample_ctx initial
           {| headers := None; data := sample_orderForm "cart" |} eq_refl).
Defined.

(** ** More on the pickup SLAs *)

(** X14: when the simulation call fails, by a rejection or a throw, both
    pickup resolvers end with that error after this one request. *)
Theorem skuPickupSLA_simulation_failure :
  forall (upstream : Upstream) (args : SkuPickupSLAListArgs)
         (pickupId : string) (st : State) (e : string),
    (upstream _ (trace st) (simulationReq (simulationArgs args)) = Rejected e
     \/ upstream _ (trace st) (simulationReq (simulationArgs args)) = Thrown e) ->
    skuPickupSLAs upstream args st
    = (Err (UpstreamError e), record_request (simulationReq (simulationArgs args)) st)
    /\ skuPickupSLA upstream args pickupId st
       = (Err (UpstreamError e),
          record_request (simulationReq (simulationArgs args)) st).
Proof.
  intros up args pickupId st e H.
  unfold skuPickupSLA, skuPickupSLAs, bind, call, await, invoke.
  destruct H as [-> | ->]; split; reflexivity.
Qed.

Lemma skuPickupSLA_simulation_failure_witness :
  skuPickupSLAs (scripted fetches_fail) sample_sla_args initial
  = (Err (UpstreamError "simulation down"),
     record_request (simulationReq (simulationArgs sample_sla_args)) initial)
  /\ skuPickupSLA (scripted fetches_fail) sample_sla_args "X" initial
     = (Err (UpstreamError "simulation down"),
        record_request (simulationReq (simulationArgs sample_sla_args)) initial).
Proof.
  apply (skuPickupSLA_simulation_failure (scripted fetches_fail) sample_sla_args
           "X" initial "simulation down").
  left. reflexivity.
Defined.

(** X15: whatever the upstream does, an SLA that [skuPickupSLA] returns
    is a [pickup-in-point] SLA of the first logistics entry that has a
    pickup store with an address, whose id is [pickupId]; the resolver
    made one request, the simulation. *)
Theorem skuPickupSLA_found_has_address :
  forall (upstream : Upstream) (args : SkuPickupSLAListArgs)
         (pickupId : string) (st : State) (s : SLA),
    fst (skuPickupSLA upstream args pickupId st) = Ok (Some s) ->
    deliveryChannel s = PStr "pickup-in-point"
    /\ (exists info a,
          pickupStoreInfo s = Some info
          /\ address info = Some a
          /\ addressId a = PStr pickupId)
    /\ (exists sim first others l,
          upstream _ (trace st) (simulationReq (simulationArgs args)) = Fulfilled sim
          /\ logisticsInfo sim = Some (first :: others)
          /\ slas first = Some l
          /\ In s l)
    /\ snd (skuPickupSLA upstream args pickupId st)
       = record_request (simulationReq (simulationArgs args)) st.
Proof.
  intros up args pickupId st s H.
  unfold skuPickupSLA, skuPickupSLAs, bind, call, await, invoke in *.
  destruct (up _ (trace st) (simulationReq (simulationArgs args)))
    as [e | sim | e] eqn:E; simpl in H; try discriminate.
  injection H as H. apply List.find_some in H. destruct H as [Hin Hid].
  apply bool_decide_eq_true in Hid.
  apply List.filter_In in Hin. destruct Hin as [Hin Hpick].
  apply bool_decide_eq_true in Hpick.
  split; [exact Hpick |]. split; [| split; [| reflexivity]].
  - unfold sla_addressId in Hid.
    destruct (pickupStoreInfo s) as [info |]; [| discriminate].
    destruct (address info) as [a |] eqn:Ha; [| discriminate].
    exists info, a. auto.
  - unfold simulation_slas in Hin.
    destruct (logisticsInfo sim) as [[|first others] |] eqn:Hl;
      try contradiction.
    destruct (slas first) as [l |] eqn:Hs; [| contradiction].
    exists sim, first, others, l. auto.
Qed.

Lemma skuPickupSLA_found_has_address_witness :
  deliveryChannel sla_pickup_X = PStr "pickup-in-point"
  /\ (exists info a,
        pickupStoreInfo sla_pickup_X = Some info
        /\ address info = Some a
        /\ addressId a = PStr "X")
  /\ (exists sim first others l,
        scripted simulation_answered _ (trace initial)
          (simulationReq (simulationArgs sample_sla_args)) = Fulfilled sim
        /\ logisticsInfo sim = Some (first :: others)
        /\ slas first = Some l
        /\ In sla_pickup_X l)
  /\ snd (skuPickupSLA (scripted simulation_answered) sample_sla_args "X" initial)
     = record_request (simulationReq (simulationArgs sample_sla_args)) initial.
Proof.
  apply (skuPickupSLA_found_has_address (scripted simulation_answered)
           sample_sla_args "X" initial sla_pickup_X).
  vm_compute. reflexivity.
Defined.

(** X16: a simulation without logistics info, with an empty list of
    entries, or whose first entry has no SLAs or an empty list of them
    gives an empty list of pickup SLAs and no SLA for any pickup id, not
    an error; entries after the first are not looked at. *)
Theorem skuPickupSLA_nothing_to_pick :
  forall (upstream : Upstream) (args : SkuPickupSLAListArgs)
         (pickupId : string) (st : State) (sim : Simulation),
    upstream _ (trace st) (simulationReq (simulationArgs args)) = Fulfilled sim ->
    (logisticsInfo sim = None
     \/ logisticsInfo sim = Some []
     \/ exists first others,
          logisticsInfo sim = Some (first :: others)
          /\ (slas first = None \/ slas first = Some [])) ->
    fst (skuPickupSLAs upstream args st) = Ok []
    /\ fst (skuPickupSLA upstream args pickupId st) = Ok None.
Proof.
  intros up args pickupId st sim Hsim Hempty.
  assert (Hslas : simulation_slas sim = []).
  { unfold simulation_slas.
    destruct Hempty as [-> | [-> | [first [others [-> [-> | ->]]]]]]; reflexivity. }
  unfold skuPickupSLA, bind. rewrite (skuPickupSLAs_run _ _ _ _ Hsim), Hslas.
  split; reflexivity.
Qed.

Lemma skuPickupSLA_nothing_to_pick_witness :
  fst (skuPickupSLAs (scripted all_fine) sample_sla_args initial) = Ok []
  /\ fst (skuPickupSLA (scripted all_fine) sample_sla_args "X" initial) = Ok None.
Proof.
  apply (skuPickupSLA_nothing_to_pick (scripted all_fine) sample_sla_args "X"
           initial {| logisticsInfo := None |} eq_refl).
  left. reflexivity.
Defined.

(** ** More on [addItem] *)

Lemma extends_trace_ret {A} (a : A) : extends_trace (ret a).
Proof. intros st. exists []. symmetry. apply app_nil_r. Qed.

Lemma extends_trace_bind {A B} (m : M A) (k : A -> M B) :
  extends_trace m -> (forall a, extends_trace (k a)) -> extends_trace (bind m k).
Proof.
  intros Hm Hk st. unfold bind. destruct (Hm st) as [l1 H1].
  destruct (m st) as [[a | e] st'] eqn:E; simpl in H1.
  - destruct (Hk a st') as [l2 H2]. exists (l1 ++ l2).
    rewrite H2, H1. symmetry. apply app_assoc.
  - exists l1. exact H1.
Qed.

Lemma extends_trace_call (up : Upstream) {T} (r : Request T) :
  extends_trace (call up r).
Proof. intros st. exists [ev r]. rewrite call_state. reflexivity. Qed.

Lemma extends_trace_addOptionsForItems up l added prev :
  extends_trace (addOptionsForItems up l added prev).
Proof.
  induction l as [|item l IH]; simpl.
  - apply extends_trace_ret.
  - apply extends_trace_bind; [apply extends_trace_call | intros _; exact IH].
Qed.

(** From the add-item call on: the call is recorded, whatever follows. *)
Lemma addItem_tail_trace (up : Upstream) (add : Request OrderForm)
    (k : OrderForm -> M OrderForm) st :
  (forall a, extends_trace (k a)) ->
  exists l, trace (snd (bind (call up add) k st)) = trace st ++ ev add :: l.
Proof.
  intros Hk. unfold bind.
  pose proof (call_state up add st) as Hst.
  destruct (call up add st) as [[v | e] st']; simpl in Hst; subst st'.
  - destruct (Hk v (record_request add st)) as [l Hl]. exists l.
    rewrite Hl. simpl. rewrite <- app_assoc. reflexivity.
  - exists []. reflexivity.
Qed.

Lemma addItem_after_add_extends up (withOptions : list OrderFormItemInput)
    (previousItems : list OrderFormItem) (added : OrderForm) :
  extends_trace
    (addOptionsForItems up withOptions added previousItems ;;;
     if length withOptions =? 0 then ret added else call up orderFormReq).
Proof.
  apply extends_trace_bind; [apply extends_trace_addOptionsForItems |].
  intros _. destruct (_ =? 0); [apply extends_trace_ret | apply extends_trace_call].
Qed.

(** X17: when the initial order-form fetch fails, [addItem] ends with
    an error and nothing is changed upstream: neither a marketing update
    nor an add-item call is made.  A throw stops before the session is
    asked for, with the thrown error.  A rejection comes after the
    session call, which [Promise.all] has already issued: the error is
    the order-form one unless the session call is rejected as well, and
    then it is the one of the call that is rejected first. *)
Theorem addItem_fetch_failure :
  forall (upstream : Upstream) (args : AddItemArgs) (orderFormId : string)
         (items : list OrderFormItemInput) (st : State) (e : string),
    arg_orderFormId args = Some orderFormId ->
    arg_items args = Some items ->
    let st1 := record_request orderFormReq st in
    let st2 := record_request getSessionReq st1 in
    (upstream _ (trace st) orderFormReq = Thrown e ->
     addItem upstream args st = (Err (UpstreamError e), st1))
    /\ (upstream _ (trace st) orderFormReq = Rejected e ->
        ((forall e2, upstream _ (trace st1) getSessionReq <> Rejected e2) ->
         addItem upstream args st = (Err (UpstreamError e), st2))
        /\ (forall e2,
              upstream _ (trace st1) getSessionReq = Rejected e2 ->
              addItem upstream args st
              = (Err (UpstreamError
                        (if first_call_rejects_first upstream (trace st2)
                         then e else e2)), st2))).
Proof.
  intros up args ofid its st e Hid Hits st1 st2.
  unfold addItem. rewrite Hid, Hits.
  split; [| intros H; split].
  - intros H. unfold bind at 1. rewrite fetch_run. cbv zeta. rewrite H.
    reflexivity.
  - intros Hsession. unfold bind at 1. rewrite fetch_run. cbv zeta. rewrite H.
    unfold fetch_rejection. fold st1.
    destruct (answer up _ (trace st1) getSessionReq) as [e2 | s | e2];
      try reflexivity.
    exfalso. exact (Hsession e2 eq_refl).
  - intros e2 Hsession. unfold bind at 1. rewrite fetch_run. cbv zeta.
    rewrite H. unfold fetch_rejection. fold st1. rewrite Hsession. reflexivity.
Qed.

Lemma addItem_fetch_failure_witness :
  addItem (scripted orderForm_fetch_fails) (add_args (Some [plain_item])) initial
  = (Err (UpstreamError "cart unavailable"),
     record_request getSessionReq (record_request orderFormReq initial))
  /\ addItem (scripted both_fetches_fail) (add_args (Some [plain_item])) initial
     = (Err (UpstreamError "cart unavailable"),
        record_request getSessionReq (record_request orderFormReq initial))
  /\ addItem (scripted_late_first both_fetches_fail)
       (add_args (Some [plain_item])) initial
     = (Err (UpstreamError "session unavailable"),
        record_request getSessionReq (record_request orderFormReq initial)).
Proof.
  split; [| split].
  - apply (proj2 (addItem_fetch_failure (scripted orderForm_fetch_fails)
                    (add_args (Some [plain_item])) "cart" [plain_item] initial
                    "cart unavailable" eq_refl eq_refl)); [reflexivity |].
    intros e2. vm_compute. discriminate.
  - apply (proj2 (proj2 (addItem_fetch_failure (scripted both_fetches_fail)
                           (add_args (Some [plain_item])) "cart" [plain_item]
                           initial "cart unavailable" eq_refl eq_refl)
                    eq_refl) "session unavailable").
    reflexivity.
  - apply (proj2 (proj2 (addItem_fetch_failure
                           (scripted_late_first both_fetches_fail)
                           (add_args (Some [plain_item])) "cart" [plain_item]
                           initial "cart unavailable" eq_refl eq_refl)
                    eq_refl) "session unavailable").
    reflexivity.
Defined.

(** X18: when the marketing-data update is sent and fails, [addItem]
    ends with that error right there: the items are not added. *)
Theorem addItem_marketing_update_failure :
  forall (upstream : Upstream) (args : AddItemArgs) (orderFormId : string)
         (items : list OrderFormItemInput) (st : State) (oform : OrderForm)
         (session : SessionFields) (e : string),
    let st2 := record_request getSessionReq (record_request orderFormReq st) in
    let update :=
      updateOrderFormMarketingDataReq orderFormId
        (newMarketingData (marketingData oform) session) in
    arg_orderFormId args = Some orderFormId ->
    arg_items args = Some items ->
    upstream _ (trace st) orderFormReq = Fulfilled oform ->
    upstream _ (trace (record_request orderFormReq st)) getSessionReq
    = Fulfilled session ->
    truthy (shouldUpdateMarketingData (marketingData oform) session) = true ->
    (upstream _ (trace st2) update = Rejected e
     \/ upstream _ (trace st2) update = Thrown e) ->
    addItem upstream args st = (Err (UpstreamError e), record_request update st2).
Proof.
  intros up args ofid its st oform session e st2 update Hid Hits Hform Hsess
         Hshould Hfail.
  unfold addItem. rewrite Hid, Hits. unfold bind at 1. rewrite fetch_run. cbv zeta.
  rewrite Hform, Hsess. fold st2. destruct oform as [oid oitems md prefs val].
  simpl in Hshould, update. rewrite Hshould. fold update.
  unfold bind at 1. unfold bind at 1. unfold call, await, invoke.
  destruct Hfail as [-> | ->]; reflexivity.
Qed.

Lemma addItem_marketing_update_failure_witness :
  addItem (scripted marketing_update_fails) (add_args (Some [plain_item])) initial
  = (Err (UpstreamError "marketing refused"),
     record_request
       (updateOrderFormMarketingDataReq "cart"
          (newMarketingData (marketingData cart_with_tags) session_source_a))
       (record_request getSessionReq (record_request orderFormReq initial))).
Proof.
  apply (addItem_marketing_update_failure (scripted marketing_update_fails)
           (add_args (Some [plain_item])) "cart" [plain_item] initial
           cart_with_tags session_source_a "marketing refused"
           eq_refl eq_refl eq_refl eq_refl);
    [vm_compute; reflexivity | left; reflexivity].
Defined.

(** X19: when the session call throws on the spot, or answers with a
    session that has neither [utmParams] nor [utmiParams], [addItem]
    sends no marketing update: the call that follows the two fetches is
    the add-item call, with the items stripped of their options. *)
Theorem addItem_without_utm_adds_directly :
  forall (upstream : Upstream) (args : AddItemArgs) (orderFormId : string)
         (items : list OrderFormItemInput) (st : State) (oform : OrderForm),
    arg_orderFormId args = Some orderFormId ->
    arg_items args = Some items ->
    upstream _ (trace st) orderFormReq = Fulfilled oform ->
    ((exists e,
         upstream _ (trace (record_request orderFormReq st)) getSessionReq
         = Thrown e)
     \/ exists session,
          upstream _ (trace (record_request orderFormReq st)) getSessionReq
          = Fulfilled session
          /\ session !! "utmParams" = None
          /\ session !! "utmiParams" = None) ->
    exists later,
      trace (snd (addItem upstream args st))
      = trace st
        ++ [ev orderFormReq; ev getSessionReq;
            ev (addItemReq orderFormId (map rest items) (arg_salesChannel args))]
        ++ later.
Proof.
  intros up args ofid its st oform Hid Hits Hform Hsession.
  unfold addItem. rewrite Hid, Hits. unfold bind at 1. rewrite fetch_run. cbv zeta.
  rewrite Hform.
  assert (Hrun : exists session,
             match up _ (trace (record_request orderFormReq st)) getSessionReq with
             | Thrown _ =>
                 (Ok (oform, ∅),
                  record_request getSessionReq (record_request orderFormReq st))
             | Fulfilled s =>
                 (Ok (oform, s),
                  record_request getSessionReq (record_request orderFormReq st))
             | Rejected e0 =>
                 (Err (UpstreamError e0),
                  record_request getSessionReq (record_request orderFormReq st))
             end
             = (Ok (oform, session),
                record_request getSessionReq (record_request orderFormReq st))
             /\ session !! "utmParams" = None /\ session !! "utmiParams" = None).
  { destruct Hsession as [[e ->] | [session [-> [H1 H2]]]].
    - exists ∅. split; [reflexivity | split; apply lookup_empty].
    - exists session. auto. }
  destruct Hrun as [session [-> [H1 H2]]].
  destruct oform as [oid oitems md prefs val].
  rewrite (shouldUpdateMarketingData_no_utm_objects md session H1 H2).
  simpl truthy. cbv iota. unfold bind at 1. unfold ret at 1.
  destruct (addItem_tail_trace up
              (addItemReq ofid (map rest its) (arg_salesChannel args))
              (fun added =>
                 addOptionsForItems up (List.filter has_options its) added oitems ;;;
                 if length (List.filter has_options its) =? 0
                 then ret added else call up orderFormReq)
              (record_request getSessionReq (record_request orderFormReq st)))
    as [later Hl].
  { intros added. apply addItem_after_add_extends. }
  exists later. rewrite Hl. simpl. rewrite <- !app_assoc. reflexivity.
Qed.

Lemma addItem_without_utm_adds_directly_witness :
  exists later,
    trace (snd (addItem (scripted session_throws)
                  (add_args (Some [plain_item])) initial))
    = trace initial
      ++ [ev orderFormReq; ev getSessionReq;
          ev (addItemReq "cart" (map rest [plain_item]) PUndefined)]
      ++ later.
Proof.
  apply (addItem_without_utm_adds_directly (scripted session_throws)
           (add_args (Some [plain_item])) "cart" [plain_item] initial
           cart_with_tags eq_refl eq_refl eq_refl).
  left. exists "no session client". reflexivity.
Defined.

(** X20: when the add-item call fails, [addItem] ends with that error
    and the add-item call is the last call it made: no follow-up call for
    options and no order-form fetch come after it. *)
Theorem addItem_add_failure :
  forall (upstream : Upstream) (args : AddItemArgs) (orderFormId : string)
         (items : list OrderFormItemInput) (st : State) (oform : OrderForm)
         (session : SessionFields) (e : string),
    let st2 := record_request getSessionReq (record_request orderFormReq st) in
    let wanted := truthy (shouldUpdateMarketingData (marketingData oform) session) in
    let update :=
      updateOrderFormMarketingDataReq orderFormId
        (newMarketingData (marketingData oform) session) in
    let st3 := if wanted then record_request update st2 else st2 in
    let add := addItemReq orderFormId (map rest items) (arg_salesChannel args) in
    arg_orderFormId args = Some orderFormId ->
    arg_items args = Some items ->
    upstream _ (trace st) orderFormReq = Fulfilled oform ->
    upstream _ (trace (record_request orderFormReq st)) getSessionReq
    = Fulfilled session ->
    (wanted = true -> exists v, upstream _ (trace st2) update = Fulfilled v) ->
    (upstream _ (trace st3) add = Rejected e
     \/ upstream _ (trace st3) add = Thrown e) ->
    addItem upstream args st = (Err (UpstreamError e), record_request add st3).
Proof.
  intros up args ofid its st oform session e st2 wanted update st3 add
         Hid Hits Hform Hsess Hupdate Hfail.
  unfold addItem. rewrite Hid, Hits. unfold bind at 1. rewrite fetch_run. cbv zeta.
  rewrite Hform, Hsess. fold st2. destruct oform as [oid oitems md prefs val].
  simpl in wanted, update. fold wanted. fold update. fold add.
  unfold bind at 1.
  assert (Hstep : (if wanted then call up update ;;; ret tt else ret tt) st2
                  = (Ok tt, st3)).
  { unfold st3. destruct wanted.
    - destruct (Hupdate eq_refl) as [v Hv].
      unfold bind, call, await, invoke. rewrite Hv. reflexivity.
    - reflexivity. }
  rewrite Hstep. unfold bind at 1. unfold call, await, invoke.
  destruct Hfail as [-> | ->]; reflexivity.
Qed.

Lemma addItem_add_failure_witness :
  addItem (scripted addItem_fails)
    (add_args (Some [plain_item; item_with_options])) initial
  = (Err (UpstreamError "out of stock"),
     record_request
       (addItemReq "cart" (map rest [plain_item; item_with_options]) PUndefined)
       (record_request getSessionReq (record_request orderFormReq initial))).
Proof.
  apply (addItem_add_failure (scripted addItem_fails)
           (add_args (Some [plain_item; item_with_options])) "cart"
           [plain_item; item_with_options] initial (sample_orderForm "cart") ∅
           "out of stock" eq_refl eq_refl eq_refl eq_refl).
  - vm_compute. discriminate.
  - left. reflexivity.
Defined.

(** ** The marketing payload, whatever the inputs *)

(** X21: the payload [addItem] builds never holds a null or undefined
    [marketingTags], and a [marketingTags] array in it has only truthy
    entries, all of them entries of the stored array; this holds for
    every stored marketing data and every session. *)
Theorem newMarketingData_tags_invariant :
  forall (md : option OrderFormMarketingData) (session : SessionFields),
    newMarketingData md session !! "marketingTags" <> Some jnull
    /\ newMarketingData md session !! "marketingTags" <> Some jundefined
    /\ forall tags,
         newMarketingData md session !! "marketingTags" = Some (JArr tags) ->
         Forall (fun t => prim_truthy t = true) tags
         /\ exists stored_tags,
              default ∅ md !! "marketingTags" = Some (JArr stored_tags)
              /\ tags = List.filter prim_truthy stored_tags.
Proof.
  intros md session. unfold newMarketingData.
  set (assigned := if 0 <? size session
                   then with_session_utm session (default ∅ md)
                   else default ∅ md).
  assert (Hassigned : assigned !! "marketingTags" = default ∅ md !! "marketingTags").
  { unfold assigned. destruct (0 <? size session); [| reflexivity].
    apply with_session_utm_other. unfold utm_keys.
    rewrite !not_elem_of_cons. repeat split; try discriminate.
    apply not_elem_of_nil. }
  pose proof (normalize_marketingTags_tags assigned) as Hn.
  rewrite Hassigned in Hn.
  destruct (default ∅ md !! "marketingTags") as [[[| | b | s] | stored_tags | o] |];
    rewrite Hn;
    (split; [discriminate | split; [discriminate | intros tags Htags]]);
    try discriminate.
  injection Htags as <-. split.
  - apply Forall_forall. intros t Ht. apply list_elem_of_In in Ht.
    apply List.filter_In in Ht. tauto.
  - exists stored_tags. auto.
Qed.

(** ** The [items] field resolver *)

Lemma mapIndexed_from_lookup {A B} (f : A -> nat -> B) (l : list A) idx i :
  mapIndexed_from idx f l !! i = (fun x => f x (idx + i)) <$> l !! i.
Proof.
  revert idx i. induction l as [|x l IH]; intros idx i; [reflexivity |].
  destruct i as [|i]; simpl.
  - rewrite Nat.add_0_r. reflexivity.
  - rewrite IH. replace (S idx + i) with (idx + S i) by lia. reflexivity.
Qed.

Lemma mapIndexed_from_length {A B} (f : A -> nat -> B) (l : list A) idx :
  length (mapIndexed_from idx f l) = length l.
Proof.
  revert idx. induction l as [|x l IH]; intros idx; simpl; [| rewrite IH]; reflexivity.
Qed.

Lemma mapIndexed_from_fst {A B} (g : A -> nat -> B) (l : list A) idx :
  map fst (mapIndexed_from idx (fun x i => (x, g x i)) l) = l.
Proof.
  revert idx. induction l as [|x l IH]; intros idx; simpl; [| rewrite IH]; reflexivity.
Qed.

(** Ramda's [reject] keeps, in their order, the elements on which the
    predicate is false. *)
Lemma reject_filter {A} (f : A -> bool) (l : list A) :
  List.filter (fun x => negb (f x)) l = filter (fun x => f x = false) l.
Proof.
  induction l as [|x l IH]; [reflexivity |].
  simpl. rewrite filter_cons, IH.
  destruct (decide (f x = false)) as [E | E].
  - rewrite E. reflexivity.
  - destruct (f x); [reflexivity | congruence].
Qed.

(** X22: the [items] field of an order form has one entry per item, in
    the order of the items; the entry at position [i] is the item at
    position [i] with [index] equal to [i], and every entry carries the
    same [childs]: the items that are not parents, each as often as it
    occurs and in the order of the items. *)
Theorem OrderForm_items_positions :
  forall (AssemblyOptionsMap : Type) (isParentItem : OrderFormItem -> bool)
         (buildAssemblyOptionsMap : OrderForm -> AssemblyOptionsMap)
         (orderForm : OrderForm),
    let resolved :=
      OrderForm_items AssemblyOptionsMap isParentItem buildAssemblyOptionsMap
        orderForm in
    length resolved = length (items orderForm)
    /\ map fst resolved = items orderForm
    /\ forall i item data,
         resolved !! i = Some (item, data) ->
         items orderForm !! i = Some item
         /\ index _ data = i
         /\ data_orderForm _ data = orderForm
         /\ assemblyOptionsMap _ data = buildAssemblyOptionsMap orderForm
         /\ childs _ data
            = filter (fun child => isParentItem child = false) (items orderForm).
Proof.
  intros AM isParent build orderForm resolved. unfold resolved, OrderForm_items, mapIndexed.
  split; [apply mapIndexed_from_length |]. split.
  - apply mapIndexed_from_fst.
  - intros i item data H. rewrite mapIndexed_from_lookup in H.
    destruct (items orderForm !! i) as [x |] eqn:Hx; [| discriminate].
    simpl in H. injection H as H1 H2. subst item data. simpl.
    do 4 (split; [reflexivity |]).
    apply reject_filter.
Qed.
